(** * httpreq: a shallow embedding of the request builder and the response view

    The Go package [httpreq] ([request.go] and the file of the
    [Response] type) is embedded as state-passing functions.  Pointer fields that Go allows to
    be nil are options, a nil dereference is the outcome [Panic], the
    [*http.Transport] objects live in a store because the client only
    holds a pointer to one, and the standard-library collaborators
    ([url.Parse], [client.Do], [mime.ParseMediaType], the multipart
    writer, ...) are the fields of one record the development is
    parametrised by. *)

From Stdlib Require Import ZArith String Ascii List Lia.
From stdpp Require Import base option list gmap strings.

Open Scope string_scope.

(** ** Bytes and errors *)

Abbreviation bytes := (list Byte.byte).

(** Which collaborator produced an error value. *)
Inductive origin : Type :=
| FromURL        (* url.Parse *)
| FromTransport  (* http.Client.Do *)
| FromOS         (* os.Open, os.Create, file reads, writes and Sync *)
| FromMultipart  (* mime/multipart.Writer *)
| FromMime       (* mime.ParseMediaType *)
| FromStream.    (* Read and Close of the response body *)

(** Go's [error] values.  [errors.New] and [fmt.Errorf] allocate a value
    that no collaborator can return, hence the separate constructor. *)
Inductive error : Type :=
| errorString (msg : string)
| libError (o : origin) (detail : string).

#[global] Instance origin_eq_dec : EqDecision origin.
Proof. solve_decision. Defined.
#[global] Instance error_eq_dec : EqDecision error.
Proof. solve_decision. Defined.

(** ** Outcomes: a call returns or panics *)

Inductive panic_kind : Type :=
| NilDereference      (* invalid memory address or nil pointer dereference *)
| NilMapAssignment    (* assignment to entry in nil map *)
| InterfaceConversion (* x.(T) on a nil interface *).

Inductive Outcome (A : Type) : Type :=
| Ok (a : A)
| Panic (k : panic_kind).
Arguments Ok {A} a.
Arguments Panic {A} k.

(** ** [strings.ToLower] *)

(** ['A' <= c && c <= 'Z'] *)
Definition isUpperByte (c : ascii) : bool :=
  (65 <=? nat_of_ascii c)%nat && (nat_of_ascii c <=? 90)%nat.

(** [c += 'a' - 'A'] on an upper-case byte *)
Definition lowerByte (c : ascii) : ascii :=
  if isUpperByte c then ascii_of_nat (nat_of_ascii c + 32) else c.

(** every byte is below [utf8.RuneSelf] (0x80) *)
Fixpoint isASCII (s : string) : bool :=
  match s with
  | EmptyString => true
  | String c s' => (nat_of_ascii c <? 128)%nat && isASCII s'
  end.

Fixpoint hasUpper (s : string) : bool :=
  match s with
  | EmptyString => false
  | String c s' => isUpperByte c || hasUpper s'
  end.

Fixpoint mapBytes (f : ascii -> ascii) (s : string) : string :=
  match s with
  | EmptyString => EmptyString
  | String c s' => String (f c) (mapBytes f s')
  end.

(** The ASCII branch of [strings.ToLower]. *)
Definition asciiToLower (s : string) : string :=
  if hasUpper s then mapBytes lowerByte s else s.

(** ** The HTTP data the package handles *)

(** [url.URL], the fields the package's documentation speaks of. *)
Record URL : Type := mkURL {
  Scheme : string;
  Host : string;
  Path : string;
  RawQuery : string;
  Fragment : string
}.

(** [tls.Config] *)
Record TLSConfig : Type := mkTLSConfig {
  InsecureSkipVerify : bool;
  ServerName : string
}.

(** The [Proxy] field of [http.Transport]. *)
Inductive ProxyFunc : Type :=
| ProxyFromEnvironment
| ProxyURL (u : URL).

(** [http.Transport]; durations are in nanoseconds. *)
Record HttpTransport : Type := mkTransport {
  Proxy : option ProxyFunc;
  TLSClientConfig : option TLSConfig;
  TLSHandshakeTimeout : Z;
  MaxIdleConns : Z;
  IdleConnTimeout : Z;
  ExpectContinueTimeout : Z;
  ForceAttemptHTTP2 : bool
}.

(** [http.Transport{}] *)
Definition zeroTransport : HttpTransport :=
  mkTransport None None 0 0 0 0 false.

Definition second : Z := 1000000000.

(** The object [http.DefaultTransport] points to when the program starts. *)
Definition defaultTransportValue : HttpTransport :=
  mkTransport (Some ProxyFromEnvironment) None (10 * second) 100
              (90 * second) (1 * second) true.

(** A pointer to a transport is its index in the store. *)
Abbreviation loc := nat (only parsing).

(** [http.DefaultTransport] is the first object of the store. *)
Definition DefaultTransport : loc := 0%nat.

(** The [Transport] field of [http.Client] has interface type
    [http.RoundTripper]: the nil interface, or a [*http.Transport],
    itself possibly nil. *)
Inductive RoundTripper : Type :=
| NilRoundTripper
| TransportPtr (p : option loc).

Record HttpClient : Type := mkClient {
  Transport : RoundTripper;
  Timeout : Z
}.

(** [http.Header]: a map from key to values, nil when [None]. *)
Abbreviation Header := (option (gmap string (list string))) (only parsing).

(** [http.Request].  [Body] is a reader over the bytes it holds;
    [GetBody] is the factory, given by the bytes each call of it yields. *)
Record HttpRequest : Type := mkRequest {
  Method : string;
  reqURL : option URL;
  reqHeader : Header;
  reqBody : option bytes;
  GetBody : option bytes;
  ContentLength : Z
}.

(** The response body, an [io.ReadCloser]: the bytes not read yet, the
    faults its [Read] and [Close] answer with, whether a read after
    [Close] fails (as it does for a body of [net/http]; a
    [ioutil.NopCloser] keeps reading), and how often it has been read to
    the end and closed. *)
Record Stream : Type := mkStream {
  pending : bytes;
  readFault : option string;
  closeFault : option string;
  failsAfterClose : bool;
  closed : bool;
  reads : nat;
  closes : nat
}.

(** [http.Response] *)
Record HttpResponse : Type := mkHttpResponse {
  respStatusCode : Z;
  respHeader : Header;
  respBody : option Stream
}.

(** ** The collaborators *)

(** [multipart.Writer] together with the [bytes.Buffer] it writes to. *)
Record MWriter : Type := mkMWriter {
  mwBuffer : bytes;
  mwBoundary : string;
  mwPartOpen : bool
}.

Record GoLib : Type := mkGoLib {
  (** [strings.Map(unicode.ToLower, s)], the branch [strings.ToLower]
      takes when [s] holds a byte outside ASCII *)
  unicodeToLower : string -> string;
  (** [url.Parse] *)
  url_Parse : string -> URL + string;
  (** [textproto.CanonicalMIMEHeaderKey] *)
  CanonicalMIMEHeaderKey : string -> string;
  (** [Do] of [*http.Client], given the transports the client may point to *)
  client_Do : list HttpTransport -> HttpClient -> HttpRequest ->
              HttpResponse + string;
  (** [mime.ParseMediaType] *)
  mime_ParseMediaType : string -> (string * gmap string string) + string;
  (** [path.Join] of two elements *)
  path_Join : string -> string -> string;
  (** [multipart.NewWriter] on an empty buffer *)
  multipart_NewWriter : MWriter;
  (** [CreateFormFile] of [*multipart.Writer]: the writer afterwards and the
      error, if any *)
  mw_CreateFormFile : MWriter -> string -> string -> MWriter * option string;
  (** [Write] on the part [CreateFormFile] returned *)
  mw_PartWrite : MWriter -> bytes -> MWriter * option string;
  (** [WriteField] of the writer *)
  mw_WriteField : MWriter -> string -> string -> MWriter * option string;
  (** [Close] of the writer *)
  mw_Close : MWriter -> MWriter * option string;
  (** [FormDataContentType] of the writer *)
  mw_FormDataContentType : MWriter -> string
}.

(** ** The world outside the builder and the view *)

Inductive fsop : Type := OpOpen | OpRead | OpClose | OpCreate | OpWrite | OpSync.

(** What the package asks of its collaborators, most recent first.
    [EvLog] keeps the format string of a [logger.Errorf] call. *)
Inductive event : Type :=
| EvLog (format : string)
| EvUrlParse (s : string)
| EvDo (method : string) (u : option URL)
| EvOpen (path : string)
| EvCreate (path : string).

Record World : Type := mkWorld {
  transports : list HttpTransport;
  files : gmap string bytes;
  fault : fsop -> string -> option string;
  trace : list event
}.

Definition setTransports (ts : list HttpTransport) (w : World) : World :=
  mkWorld ts (files w) (fault w) (trace w).
Definition setFiles (fs : gmap string bytes) (w : World) : World :=
  mkWorld (transports w) fs (fault w) (trace w).
Definition addEvent (e : event) (w : World) : World :=
  mkWorld (transports w) (files w) (fault w) (e :: trace w).

(** ** The monad of the embedding: state passing over the world, with panics *)

Definition M (A : Type) : Type := World -> Outcome (A * World).

Definition ret {A} (a : A) : M A := fun w => Ok (a, w).

Definition bind {A B} (m : M A) (k : A -> M B) : M B :=
  fun w => match m w with
           | Ok (a, w') => k a w'
           | Panic p => Panic p
           end.

Definition panic {A} (p : panic_kind) : M A := fun _ => Panic p.

Definition emit (e : event) : M unit := fun w => Ok (tt, addEvent e w).

Definition getWorld : M World := fun w => Ok (w, w).

Definition modifyWorld (f : World -> World) : M unit := fun w => Ok (tt, f w).

Declare Scope go_scope.
Delimit Scope go_scope with go.
Notation "x <- m ;; k" := (bind m (fun x => k))
  (at level 100, m at next level, right associativity) : go_scope.
Notation "m ;;; k" := (bind m (fun _ => k))
  (at level 100, right associativity) : go_scope.
Open Scope go_scope.

(** [logger.Errorf] *)
Definition Errorf (format : string) : M unit := emit (EvLog format).

(** ** The builder and the view *)

(** [type Req struct] *)
Record Req : Type := mkReq {
  request : option HttpRequest;
  client : option HttpClient;
  address : string;
  err : option error
}.

(** [type Response struct]; a nil [data] and an empty one are both [[]]. *)
Record Response : Type := mkResponse {
  resp : option HttpResponse;
  data : bytes
}.

Definition setRequest (q : option HttpRequest) (r : Req) : Req :=
  mkReq q (client r) (address r) (err r).
Definition setClient (c : option HttpClient) (r : Req) : Req :=
  mkReq (request r) c (address r) (err r).
Definition setAddress (a : string) (r : Req) : Req :=
  mkReq (request r) (client r) a (err r).
Definition setErr (e : option error) (r : Req) : Req :=
  mkReq (request r) (client r) (address r) e.

Definition setMethod (m : string) (q : HttpRequest) : HttpRequest :=
  mkRequest m (reqURL q) (reqHeader q) (reqBody q) (GetBody q) (ContentLength q).
Definition setReqURL (u : option URL) (q : HttpRequest) : HttpRequest :=
  mkRequest (Method q) u (reqHeader q) (reqBody q) (GetBody q) (ContentLength q).
Definition setReqHeader (h : Header) (q : HttpRequest) : HttpRequest :=
  mkRequest (Method q) (reqURL q) h (reqBody q) (GetBody q) (ContentLength q).
Definition setReqBody (b g : option bytes) (n : Z) (q : HttpRequest) : HttpRequest :=
  mkRequest (Method q) (reqURL q) (reqHeader q) b g n.

Definition setTLSClientConfig (c : option TLSConfig) (t : HttpTransport) : HttpTransport :=
  mkTransport (Proxy t) c (TLSHandshakeTimeout t) (MaxIdleConns t)
              (IdleConnTimeout t) (ExpectContinueTimeout t) (ForceAttemptHTTP2 t).
Definition setProxyField (p : option ProxyFunc) (t : HttpTransport) : HttpTransport :=
  mkTransport p (TLSClientConfig t) (TLSHandshakeTimeout t) (MaxIdleConns t)
              (IdleConnTimeout t) (ExpectContinueTimeout t) (ForceAttemptHTTP2 t).

Definition setTransportField (t : RoundTripper) (c : HttpClient) : HttpClient :=
  mkClient t (Timeout c).
Definition setTimeoutField (d : Z) (c : HttpClient) : HttpClient :=
  mkClient (Transport c) d.

(** [&transport] for a transport that escapes: a new object of the store. *)
Definition allocTransport (t : HttpTransport) : M loc :=
  fun w => Ok (length (transports w), setTransports (transports w ++ [t]) w).

(** [New]: [http.DefaultTransport] holds the [*http.Transport] it is
    initialised with. *)
Definition New (address : string) : Req :=
  mkReq (Some (mkRequest "GET" None (Some ∅) None None 0))
        (Some (mkClient (TransportPtr (Some DefaultTransport)) (30 * second)))
        address
        None.

Section Package.

Variable L : GoLib.

(** [strings.ToLower] *)
Definition ToLower (s : string) : string :=
  if isASCII s then asciiToLower s else unicodeToLower L s.

(** [h.Set(key, value)] *)
Definition Header_Set (h : Header) (key value : string) : Outcome Header :=
  match h with
  | None => Panic NilMapAssignment
  | Some m => Ok (Some (<[CanonicalMIMEHeaderKey L key := [value]]> m))
  end.

(** [h.Get(key)] *)
Definition Header_Get (h : Header) (key : string) : string :=
  match h with
  | None => ""
  | Some m => match m !! CanonicalMIMEHeaderKey L key with
              | Some (v :: _) => v
              | _ => ""
              end
  end.

(** [r.request.Header.Set(k, v)] *)
Definition requestHeaderSet (k v : string) (r : Req) : M Req :=
  match request r with
  | None => panic NilDereference
  | Some q =>
      match Header_Set (reqHeader q) k v with
      | Panic p => panic p
      | Ok h => ret (setRequest (Some (setReqHeader h q)) r)
      end
  end.

(** [SetTLSConfig]: writes through the pointer the client holds. *)
Definition SetTLSConfig (c : option TLSConfig) (r : Req) : M Req :=
  match client r with
  | None => panic NilDereference
  | Some cl =>
      match Transport cl with
      | NilRoundTripper => panic InterfaceConversion
      | TransportPtr None => panic NilDereference
      | TransportPtr (Some l) =>
          fun w => match transports w !! l with
                   | None => Panic NilDereference
                   | Some t =>
                       Ok (r, setTransports
                                (<[l := setTLSClientConfig c t]> (transports w)) w)
                   end
      end
  end.

Definition SetTimeout (d : Z) (r : Req) : M Req :=
  match client r with
  | None => panic NilDereference
  | Some cl => ret (setClient (Some (setTimeoutField d cl)) r)
  end.

(** The body of [for k, v := range headers], over the entries in the
    order the iteration yields them. *)
Fixpoint rangeHeaders (headers : list (string * string)) (r : Req) : M Req :=
  match headers with
  | [] => ret r
  | (k, v) :: rest => r' <- requestHeaderSet k v r ;; rangeHeaders rest r'
  end.

Definition SetHeaders (headers : list (string * string)) (r : Req) : M Req :=
  if (0 <? length headers)%nat then rangeHeaders headers r else ret r.

Definition SetContentType (contentType : string) (r : Req) : M Req :=
  requestHeaderSet "Content-Type" contentType r.

Definition SetTransport (transport : option loc) (r : Req) : M Req :=
  match client r with
  | None => panic NilDereference
  | Some cl => ret (setClient (Some (setTransportField (TransportPtr transport) cl)) r)
  end.

Definition SetBody (data : bytes) (r : Req) : M Req :=
  match request r with
  | None => panic NilDereference
  | Some q =>
      ret (setRequest
             (Some (setReqBody (Some data) (Some data) (Z.of_nat (length data)) q)) r)
  end.

Definition SetBodyXML (r : Req) : M Req :=
  SetContentType "application/xml; charset=UTF-8" r.

(** [os.Open]: the contents the handle will yield, or the error. *)
Definition os_Open (name : string) : M (bytes + error) :=
  emit (EvOpen name) ;;;
  w <- getWorld ;;
  match fault w OpOpen name with
  | Some d => ret (inr (libError FromOS d))
  | None =>
      match files w !! name with
      | None => ret (inr (libError FromOS "no such file or directory"))
      | Some c => ret (inl c)
      end
  end.

(** [io.Copy(part, f)] *)
Definition io_Copy_part (w : MWriter) (name : string) (content : bytes)
  : M (MWriter * option error) :=
  wd <- getWorld ;;
  match fault wd OpRead name with
  | Some d => ret (w, Some (libError FromOS d))
  | None =>
      let '(w', e) := mw_PartWrite L w content in
      ret (w', libError FromMultipart <$> e)
  end.

(** The deferred [f.Close()] of [createFormFile]; its error is logged and
    dropped, the function's result being unnamed. *)
Definition deferredClose (name : string) : M unit :=
  wd <- getWorld ;;
  match fault wd OpClose name with
  | Some _ => Errorf "Failed to close file %s Error: %v"
  | None => ret tt
  end.

(** [createFormFile]: the writer as the call leaves it, and the error. *)
Definition createFormFile (w : MWriter) (key value : string)
  : M (MWriter * option error) :=
  let '(w1, e) := mw_CreateFormFile L w key value in
  match e with
  | Some d =>
      Errorf "Failed to create form data from file %v Error: %v" ;;;
      ret (w1, Some (libError FromMultipart d))
  | None =>
      f <- os_Open value ;;
      match f with
      | inr e =>
          Errorf "Failed to open file %s Error: %v" ;;;
          ret (w1, Some e)
      | inl content =>
          copied <- io_Copy_part w1 value content ;;
          let '(w2, e) := copied in
          match e with
          | Some e =>
              Errorf "Can't copy file %s Error: %v" ;;;
              deferredClose value ;;;
              ret (w2, Some e)
          | None =>
              deferredClose value ;;;
              ret (w2, None)
          end
      end
  end.

(** [for key, value := range file], inside [SetForm]: the writer after
    the entries, or the error of the first entry that fails. *)
Fixpoint rangeFile (file : list (string * string)) (w : MWriter)
  : M (MWriter + error) :=
  match file with
  | [] => ret (inl w)
  | (key, value) :: rest =>
      created <- createFormFile w key value ;;
      match created with
      | (_, Some e) =>
          Errorf "Failed to create form file %s as %s Error: %v" ;;;
          ret (inr e)
      | (w', None) => rangeFile rest w'
      end
  end.

(** [for _, file := range files] *)
Fixpoint rangeFiles (files : list (list (string * string))) (w : MWriter)
  : M (MWriter + error) :=
  match files with
  | [] => ret (inl w)
  | file :: rest =>
      done <- rangeFile file w ;;
      match done with
      | inr e => ret (inr e)
      | inl w' => rangeFiles rest w'
      end
  end.

(** [for k, v := range field] *)
Fixpoint rangeField (field : list (string * string)) (w : MWriter)
  : M (MWriter + error) :=
  match field with
  | [] => ret (inl w)
  | (k, v) :: rest =>
      match mw_WriteField L w k v with
      | (_, Some d) =>
          Errorf "Can't write field %s as %s Error: %v" ;;;
          ret (inr (libError FromMultipart d))
      | (w', None) => rangeField rest w'
      end
  end.

(** [for _, field := range fields] *)
Fixpoint rangeFields (fields : list (list (string * string))) (w : MWriter)
  : M (MWriter + error) :=
  match fields with
  | [] => ret (inl w)
  | field :: rest =>
      done <- rangeField field w ;;
      match done with
      | inr e => ret (inr e)
      | inl w' => rangeFields rest w'
      end
  end.

(** [SetForm]; each map of [files] and [fields] is given by its entries
    in the order [range] yields them. *)
Definition SetForm (files fields : list (list (string * string))) (r : Req)
  : M Req :=
  match err r with
  | Some _ => ret r
  | None =>
      let w := multipart_NewWriter L in
      filesDone <- rangeFiles files w ;;
      match filesDone with
      | inr e => ret (setErr (Some e) r)
      | inl w1 =>
          fieldsDone <- rangeFields fields w1 ;;
          match fieldsDone with
          | inr e => ret (setErr (Some e) r)
          | inl w2 =>
              match mw_Close L w2 with
              | (_, Some d) =>
                  Errorf "Can't close multipart writer Error: %v" ;;;
                  ret (setErr (Some (libError FromMultipart d)) r)
              | (w3, None) =>
                  match request r with
                  | None => panic NilDereference
                  | Some q =>
                      let b := mwBuffer w3 in
                      let q1 := setReqBody (Some b) (Some b) (Z.of_nat (length b)) q in
                      match Header_Set (reqHeader q1) "Content-Type"
                                       (mw_FormDataContentType L w3) with
                      | Panic p => panic p
                      | Ok h => ret (setRequest (Some (setReqHeader h q1)) r)
                      end
                  end
              end
          end
      end
  end.

(** [SetProxy] *)
Definition SetProxy (u : string) (r : Req) : M Req :=
  emit (EvUrlParse u) ;;;
  match url_Parse L u with
  | inr d => ret (setErr (Some (libError FromURL d)) r)
  | inl proxyURL =>
      let transport := setProxyField (Some (ProxyURL proxyURL)) zeroTransport in
      l <- allocTransport transport ;;
      match client r with
      | None => panic NilDereference
      | Some cl =>
          ret (setClient (Some (setTransportField (TransportPtr (Some l)) cl)) r)
      end
  end.

(** [generateURL] *)
Definition generateURL (address : string) : M (option URL * option error) :=
  let address := ToLower address in
  emit (EvUrlParse address) ;;;
  match url_Parse L address with
  | inr d =>
      Errorf "URL parsing error: %s, %v" ;;;
      ret (None, Some (libError FromURL d))
  | inl parsedURL => ret (Some parsedURL, None)
  end.

Definition invariantError : error :=
  errorString "request.GetBody cannot be nil because it prevents redirection when content length>0".

(** [send]: the returned pair and the builder as the call leaves it. *)
Definition send (method : string) (r : Req)
  : M ((option Response * option error) * Req) :=
  match err r with
  | Some e => ret ((None, Some e), r)
  | None =>
      match request r with
      | None => panic NilDereference
      | Some q =>
          if (0 <? ContentLength q)%Z && bool_decide (GetBody q = None)
          then ret ((None, Some invariantError), r)
          else
            let q1 := setMethod method q in
            let r1 := setRequest (Some q1) r in
            generated <- generateURL (address r1) ;;
            match generated with
            | (_, Some e) =>
                Errorf "Error generating URL: %s, %v" ;;;
                ret ((None, Some e), r1)
            | (URL, None) =>
                let q2 := setReqURL URL q1 in
                let r2 := setRequest (Some q2) r1 in
                match client r2 with
                | None => panic NilDereference
                | Some cl =>
                    emit (EvDo method URL) ;;;
                    w <- getWorld ;;
                    match client_Do L (transports w) cl q2 with
                    | inr d =>
                        Errorf "Error sending HTTP request: %s, %v" ;;;
                        ret ((None, Some (libError FromTransport d)), r2)
                    | inl resp =>
                        ret ((Some (mkResponse (Some resp) []), None), r2)
                    end
                end
            end
      end
  end.

Definition Get (r : Req) := send "GET" r.
Definition Post (r : Req) := send "POST" r.
Definition Put (r : Req) := send "PUT" r.
Definition Delete (r : Req) := send "DELETE" r.

Definition PostJSON (r : Req) : M ((option Response * option error) * Req) :=
  r' <- SetContentType "application/json" r ;;
  send "POST" r'.

End Package.

(** ** The response body as a stream *)

Definition countRead (s : Stream) : Stream :=
  mkStream (pending s) (readFault s) (closeFault s) (failsAfterClose s)
           (closed s) (S (reads s)) (closes s).
Definition drained (s : Stream) : Stream :=
  mkStream [] (readFault s) (closeFault s) (failsAfterClose s)
           (closed s) (reads s) (closes s).

(** [ioutil.ReadAll(s)] *)
Definition ReadAll (s : Stream) : (bytes + error) * Stream :=
  let s' := countRead s in
  if closed s && failsAfterClose s
  then (inr (libError FromStream "read on closed response body"), s')
  else match readFault s with
       | Some d => (inr (libError FromStream d), s')
       | None => (inl (pending s), drained s')
       end.

(** [s.Close()] *)
Definition StreamClose (s : Stream) : option error * Stream :=
  (libError FromStream <$> closeFault s,
   mkStream (pending s) (readFault s) (closeFault s) (failsAfterClose s)
            true (reads s) (S (closes s))).

Definition setData (d : bytes) (r : Response) : Response :=
  mkResponse (resp r) d.

(** The view with its stream replaced by [s]. *)
Definition setStream (s : Stream) (r : Response) : Response :=
  match resp r with
  | None => r
  | Some h =>
      mkResponse (Some (mkHttpResponse (respStatusCode h) (respHeader h) (Some s)))
                 (data r)
  end.

(** The stream of a view, if it has one. *)
Definition streamOf (r : Response) : option Stream :=
  h ← resp r; respBody h.

(** [os.Create] *)
Definition os_Create (name : string) : M (option error) :=
  emit (EvCreate name) ;;;
  w <- getWorld ;;
  match fault w OpCreate name with
  | Some d => ret (Some (libError FromOS d))
  | None => modifyWorld (setFiles (<[name := []]> (files w))) ;;; ret None
  end.

(** [io.Copy(f, bytes.NewReader(data))] on the file just created *)
Definition io_Copy_file (name : string) (data : bytes) : M (option error) :=
  w <- getWorld ;;
  match fault w OpWrite name with
  | Some d => ret (Some (libError FromOS d))
  | None => modifyWorld (setFiles (<[name := data]> (files w))) ;;; ret None
  end.

(** [f.Sync()] *)
Definition file_Sync (name : string) : M (option error) :=
  w <- getWorld ;;
  ret (libError FromOS <$> fault w OpSync name).

Section View.

Variable L : GoLib.

(** [StatusCode], [Headers] and [Close] test their receiver against nil,
    so they take the pointer; the other methods dereference it at once
    and take the view. *)
Definition StatusCode (r : option Response) : Z :=
  match r with
  | None => 0
  | Some v => match resp v with
              | None => 0
              | Some h => respStatusCode h
              end
  end.

Definition Headers (r : option Response) : Header :=
  match r with
  | None => None
  | Some v => match resp v with
              | None => None
              | Some h => respHeader h
              end
  end.

(** [readBody]: the returned pair and the view as the call leaves it. *)
Definition readBody (r : Response) : M ((bytes * option error) * Response) :=
  if negb (length (data r) =? 0)%nat then ret ((data r, None), r)
  else
    match resp r with
    | None =>
        Errorf "%v" ;;;
        ret (([], Some (errorString "http.Response is nil")), r)
    | Some h =>
        match respBody h with
        | None =>
            Errorf "%v" ;;;
            ret (([], Some (errorString "http.Response's Body is nil")), r)
        | Some s =>
            match ReadAll s with
            | (inr e, s1) =>
                Errorf "Can't read http.Response body Error: %v" ;;;
                ret (([], Some e), setStream s1 r)
            | (inl b, s1) =>
                let r1 := setData b (setStream s1 r) in
                match StreamClose s1 with
                | (Some e, s2) =>
                    Errorf "Can't close http.Response body Error: %v" ;;;
                    ret (([], Some e), setStream s2 r1)
                | (None, s2) => ret ((b, None), setStream s2 r1)
                end
            end
        end
    end.

Definition Body (r : Response) : M ((bytes * option error) * Response) :=
  res <- readBody r ;;
  match res with
  | ((_, Some e), r') =>
      Errorf "Can not read http.Response body Error: %v" ;;;
      ret (([], Some e), r')
  | ((body, None), r') => ret ((body, None), r')
  end.

Definition emptyFileError (filePath : string) : error :=
  errorString
    ("Downloaded file is empty. Can not save empty response to file " +:+ filePath).

Definition SaveFile (filePath : string) (r : Response)
  : M (option error * Response) :=
  res <- readBody r ;;
  match res with
  | ((_, Some e), r') =>
      Errorf "Can not save response to file %s Error: %v" ;;;
      ret (Some e, r')
  | ((data, None), r') =>
      if (length data =? 0)%nat then ret (Some (emptyFileError filePath), r')
      else
        created <- os_Create filePath ;;
        match created with
        | Some e =>
            Errorf "Can not create file %s Error: %v" ;;;
            ret (Some e, r')
        | None =>
            copied <- io_Copy_file filePath data ;;
            match copied with
            | Some e =>
                Errorf "Can write to file %s Error: %v" ;;;
                ret (Some e, r')
            | None =>
                synced <- file_Sync filePath ;;
                match synced with
                | Some e =>
                    Errorf "Can't sync file %s Error: %v" ;;;
                    ret (Some e, r')
                | None => ret (None, r')
                end
            end
        end
  end.

(** [DownloadFile]: content type, file path and error, and the view. *)
Definition DownloadFile (downloadDir : string) (r : Response)
  : M ((string * string * option error) * Response) :=
  let headers := Headers (Some r) in
  match headers with
  | None =>
      Errorf "%v" ;;;
      ret (("", "", Some (errorString "http response headers missing")), r)
  | Some _ =>
      let contentType := Header_Get L headers "Content-Type" in
      let disposition := Header_Get L headers "Content-Disposition" in
      if String.eqb disposition "" then
        Errorf "%v" ;;;
        ret ((contentType, "",
              Some (errorString "content-disposition header missing")), r)
      else
        match mime_ParseMediaType L disposition with
        | inr d =>
            Errorf "mime.ParseMediaType error: %v" ;;;
            ret ((contentType, "", Some (libError FromMime d)), r)
        | inl (_, params) =>
            let fileName := default "" (params !! "filename") in
            if String.eqb fileName "" then
              Errorf "%v" ;;;
              ret ((contentType, "",
                    Some (errorString "filename missing in content-disposition")), r)
            else
              let filePath := path_Join L downloadDir fileName in
              saved <- SaveFile filePath r ;;
              match saved with
              | (Some e, r') =>
                  Errorf "cannot save file error: %v" ;;;
                  ret ((contentType, "", Some e), r')
              | (None, r') => ret ((contentType, filePath, None), r')
              end
        end
  end.

(** [Close] *)
Definition Close (r : option Response) : M (option error * option Response) :=
  match r with
  | None => ret (None, None)
  | Some v =>
      match streamOf v with
      | None => ret (None, r)
      | Some s =>
          match StreamClose s with
          | (Some e, s') =>
              Errorf "Can't close http response body Error: %v" ;;;
              ret (Some e, Some (setStream s' v))
          | (None, s') => ret (None, Some (setStream s' v))
          end
      end
  end.

End View.

(** ** The configuration calls as data *)

(** One chained configuration call with its arguments. *)
Inductive config : Type :=
| CSetHeaders (headers : list (string * string))
| CSetContentType (contentType : string)
| CSetTimeout (d : Z)
| CSetTLSConfig (c : option TLSConfig)
| CSetTransport (transport : option loc)
| CSetProxy (u : string)
| CSetBody (data : bytes)
| CSetBodyXML
| CSetForm (files fields : list (list (string * string))).

Definition configure (L : GoLib) (c : config) (r : Req) : M Req :=
  match c with
  | CSetHeaders headers => SetHeaders L headers r
  | CSetContentType contentType => SetContentType L contentType r
  | CSetTimeout d => SetTimeout d r
  | CSetTLSConfig c => SetTLSConfig c r
  | CSetTransport transport => SetTransport transport r
  | CSetProxy u => SetProxy L u r
  | CSetBody data => SetBody data r
  | CSetBodyXML => SetBodyXML L r
  | CSetForm files fields => SetForm L files fields r
  end.

(** The calls that carry no test of the error field; [SetProxy] is one
    of them as long as its argument parses. *)
Definition ungated (L : GoLib) (c : config) : Prop :=
  match c with
  | CSetForm _ _ => False
  | CSetProxy u => exists proxyURL, url_Parse L u = inl proxyURL
  | _ => True
  end.

(** An outcome with a field of the returned builder overwritten. *)
Definition mapReq (f : Req -> Req) (o : Outcome (Req * World))
  : Outcome (Req * World) :=
  match o with
  | Ok (r, w) => Ok (f r, w)
  | Panic p => Panic p
  end.

(** What [New] establishes and every call of the package keeps: the
    builder has a request with a header map, and a client. *)
Definition wellFormed (r : Req) : Prop :=
  (exists q h, request r = Some q /\ reqHeader q = Some h) /\
  (exists cl, client r = Some cl).

(** The transport object the client of a builder points to. *)
Definition clientTransport (r : Req) (w : World) : option HttpTransport :=
  cl ← client r;
  match Transport cl with
  | TransportPtr (Some l) => transports w !! l
  | _ => None
  end.

(** ** The entries of a form, in the order [SetForm] treats them *)

Inductive entry : Type :=
| FileEntry (key value : string)
| FieldEntry (k v : string).

Definition formEntries (files fields : list (list (string * string))) : list entry :=
  map (fun kv => FileEntry kv.1 kv.2) (concat files)
  ++ map (fun kv => FieldEntry kv.1 kv.2) (concat fields).

(** One turn of the loop the entry belongs to. *)
Definition runEntry (L : GoLib) (x : entry) (mw : MWriter) : M (MWriter + error) :=
  match x with
  | FileEntry key value =>
      created <- createFormFile L mw key value ;;
      match created with
      | (_, Some e) =>
          Errorf "Failed to create form file %s as %s Error: %v" ;;;
          ret (inr e)
      | (mw', None) => ret (inl mw')
      end
  | FieldEntry k v =>
      match mw_WriteField L mw k v with
      | (_, Some d) =>
          Errorf "Can't write field %s as %s Error: %v" ;;;
          ret (inr (libError FromMultipart d))
      | (mw', None) => ret (inl mw')
      end
  end.

Fixpoint runEntries (L : GoLib) (xs : list entry) (mw : MWriter) : M (MWriter + error) :=
  match xs with
  | [] => ret (inl mw)
  | x :: rest =>
      done <- runEntry L x mw ;;
      match done with
      | inr e => ret (inr e)
      | inl mw' => runEntries L rest mw'
      end
  end.


(** ** Sequences of calls on a view *)

Inductive bodyCall : Type :=
| CallBody
| CallSaveFile (filePath : string)
| CallDownloadFile (downloadDir : string).

Definition runBodyCall (L : GoLib) (c : bodyCall) (v : Response) : M Response :=
  match c with
  | CallBody => res <- Body v ;; ret res.2
  | CallSaveFile filePath => res <- SaveFile filePath v ;; ret res.2
  | CallDownloadFile downloadDir => res <- DownloadFile L downloadDir v ;; ret res.2
  end.

Fixpoint runBodyCalls (L : GoLib) (cs : list bodyCall) (v : Response) : M Response :=
  match cs with
  | [] => ret v
  | c :: rest => v' <- runBodyCall L c v ;; runBodyCalls L rest v'
  end.

(** ** Strings that differ in letter case only *)



(** ** Chains of configuration calls *)

Fixpoint configureAll (L : GoLib) (cs : list config) (r : Req) : M Req :=
  match cs with
  | [] => ret r
  | c :: rest => r' <- configure L c r ;; configureAll L rest r'
  end.

(** What [SetBody] and [SetForm] install together: a request either has
    no replay factory and announces no content, or has one that yields
    the bytes of its body, as many as it announces.  And a recorded
    error is one a collaborator produced. *)
Definition replayable (r : Req) : Prop :=
  (forall q, request r = Some q ->
     match GetBody q with
     | None => ContentLength q = 0%Z
     | Some b => reqBody q = Some b /\ ContentLength q = Z.of_nat (length b)
     end) /\
  (forall e, err r = Some e -> exists o d, e = libError o d).

(** The header map after [h.Set(k, v)] for each entry in turn. *)
Definition setAll (L : GoLib) (headers : list (string * string))
           (m : gmap string (list string)) : gmap string (list string) :=
  foldl (fun m kv => <[CanonicalMIMEHeaderKey L kv.1 := [kv.2]]> m) m headers.

(** The value of the last entry whose key has the canonical form of [key]. *)
Fixpoint lastValue (L : GoLib) (headers : list (string * string)) (key : string)
  : option string :=
  match headers with
  | [] => None
  | (k, v) :: rest =>
      match lastValue L rest key with
      | Some v' => Some v'
      | None =>
          if decide (CanonicalMIMEHeaderKey L k = CanonicalMIMEHeaderKey L key)
          then Some v else None
      end
  end.

(** A world that differs from [w] in the faults of its disk only. *)
Definition setFault (f : fsop -> string -> option string) (w : World) : World :=
  mkWorld (transports w) (files w) f (trace w).

(** Two worlds with the same files whose disks fail alike, but possibly
    for closing a file. *)
Definition agreeButClose (a b : World) : Prop :=
  files a = files b /\
  forall op name, op <> OpClose -> fault a op name = fault b op name.

(** [Response()], the accessor of the view *)
Definition RawResponse (r : Response) : option HttpResponse := resp r.

(** ** The built-in logger ([logger.go]) *)

(** One call of the [log.Logger] below a [BuiltinLogger]. *)
Inductive logCall : Type :=
| Println (args : list string)
| Printf (format : string) (args : list string).

(** [log.Logger]: its prefix, its flags and what it was asked to write to
    its output, most recent first. *)
Record LogLogger : Type := mkLogLogger {
  logPrefix : string;
  logFlags : Z;
  logWritten : list logCall
}.

(** [type BuiltinLogger struct]; the field is a pointer. *)
Record BuiltinLogger : Type := mkBuiltinLogger {
  logger : option LogLogger
}.

(** [log.New(os.Stdout, "", 5)] inside [NewBuiltinLogger] *)
Definition NewBuiltinLogger : BuiltinLogger :=
  mkBuiltinLogger (Some (mkLogLogger "" 5 [])).

(** [l.logger.Println(args...)] *)
Definition loggerPrintln (args : list string) (l : BuiltinLogger)
  : Outcome BuiltinLogger :=
  match logger l with
  | None => Panic NilDereference
  | Some g =>
      Ok (mkBuiltinLogger
            (Some (mkLogLogger (logPrefix g) (logFlags g) (Println args :: logWritten g))))
  end.

(** [l.logger.Printf(format, args...)] *)
Definition loggerPrintf (format : string) (args : list string) (l : BuiltinLogger)
  : Outcome BuiltinLogger :=
  match logger l with
  | None => Panic NilDereference
  | Some g =>
      Ok (mkBuiltinLogger
            (Some (mkLogLogger (logPrefix g) (logFlags g)
                               (Printf format args :: logWritten g))))
  end.

Module Builtin.

Definition Debug (args : list string) (l : BuiltinLogger) := loggerPrintln args l.
Definition Debugf (format : string) (args : list string) (l : BuiltinLogger) :=
  loggerPrintf format args l.
Definition Info (args : list string) (l : BuiltinLogger) := loggerPrintln args l.
Definition Infof (format : string) (args : list string) (l : BuiltinLogger) :=
  loggerPrintf format args l.
Definition Warn (args : list string) (l : BuiltinLogger) := loggerPrintln args l.
Definition Warnf (format : string) (args : list string) (l : BuiltinLogger) :=
  loggerPrintf format args l.
Definition Error (args : list string) (l : BuiltinLogger) := loggerPrintln args l.
Definition Errorf (format : string) (args : list string) (l : BuiltinLogger) :=
  loggerPrintf format args l.
Definition Fatal (args : list string) (l : BuiltinLogger) := loggerPrintln args l.
Definition Fatalf (format : string) (args : list string) (l : BuiltinLogger) :=
  loggerPrintf format args l.

(** The ten methods of the [Logger] interface, by name. *)
Inductive method : Type :=
| MDebug | MInfo | MWarn | MError | MFatal
| MDebugf | MInfof | MWarnf | MErrorf | MFatalf.

(** A call of a method; the plain methods take no format. *)
Definition call (m : method) (format : string) (args : list string)
           (l : BuiltinLogger) : Outcome BuiltinLogger :=
  match m with
  | MDebug => Debug args l
  | MInfo => Info args l
  | MWarn => Warn args l
  | MError => Error args l
  | MFatal => Fatal args l
  | MDebugf => Debugf format args l
  | MInfof => Infof format args l
  | MWarnf => Warnf format args l
  | MErrorf => Errorf format args l
  | MFatalf => Fatalf format args l
  end.

Definition formatted (m : method) : bool :=
  match m with
  | MDebugf | MInfof | MWarnf | MErrorf | MFatalf => true
  | _ => false
  end.

(** A run of calls, first to last. *)
Fixpoint calls (cs : list (method * string * list string)) (l : BuiltinLogger)
  : Outcome BuiltinLogger :=
  match cs with
  | [] => Ok l
  | (m, format, args) :: rest =>
      match call m format args l with
      | Ok l' => calls rest l'
      | Panic p => Panic p
      end
  end.

(** What a run of calls writes, most recent first. *)
Definition written (cs : list (method * string * list string)) : list logCall :=
  rev (map (fun c => if formatted c.1.1 then Printf c.1.2 c.2 else Println c.2) cs).

End Builtin.

(** ** A concrete set of collaborators and a concrete world *)

Module Sample.

Fixpoint contains (c : ascii) (s : string) : bool :=
  match s with
  | EmptyString => false
  | String d s' => Ascii.eqb c d || contains c s'
  end.

(** A relative reference without escapes parses to a path. *)
Definition parse (s : string) : URL + string :=
  if contains "%"%char s then inr "invalid URL escape"
  else inl (mkURL "" "" s "" "").

Definition upperByte (c : ascii) : ascii :=
  if (97 <=? nat_of_ascii c)%nat && (nat_of_ascii c <=? 122)%nat
  then ascii_of_nat (nat_of_ascii c - 32) else c.

Fixpoint canonical (upper : bool) (s : string) : string :=
  match s with
  | EmptyString => EmptyString
  | String c s' =>
      String (if upper then upperByte c else lowerByte c)
             (canonical (Ascii.eqb c "-"%char) s')
  end.

Definition hello : bytes := list_byte_of_string "hello".

Definition stream (content : bytes) : Stream :=
  mkStream content None None true false 0 0.

Definition answer (content : bytes) (disposition : list (string * list string))
  : HttpResponse :=
  mkHttpResponse 200
    (Some (list_to_map (("Content-Type", ["application/json"]) :: disposition)))
    (Some (stream content)).

Definition do (ts : list HttpTransport) (c : HttpClient) (q : HttpRequest)
  : HttpResponse + string :=
  match reqURL q with
  | Some u => if String.eqb (Path u) "wrong-host" then inr "no such host"
              else inl (answer hello [])
  | None => inr "nil Request.URL"
  end.

Definition parseMediaType (v : string) : (string * gmap string string) + string :=
  if String.eqb v "attachment;" then inl ("attachment", ∅)
  else if String.eqb v "attachment;filename=x.bin"
       then inl ("attachment", {["filename" := "x.bin"]})
       else inr "mime: no media type".

Definition join (dir name : string) : string := dir +:+ "/" +:+ name.

Definition write (bs : bytes) (mw : MWriter) : MWriter :=
  mkMWriter (mwBuffer mw ++ bs) (mwBoundary mw) (mwPartOpen mw).

Definition partHeader (mw : MWriter) (name : string) : bytes :=
  list_byte_of_string ("--" +:+ mwBoundary mw +:+ " " +:+ name +:+ " ").

Definition lib : GoLib :=
  mkGoLib (mapBytes lowerByte) parse (canonical true) do parseMediaType join
          (mkMWriter [] "b0" false)
          (fun mw key _ => (write (partHeader mw key) mw, None))
          (fun mw bs => (write bs mw, None))
          (fun mw k v =>
             (write (partHeader mw k ++ list_byte_of_string v) mw, None))
          (fun mw => (write (list_byte_of_string "--b0--") mw, None))
          (fun mw => "multipart/form-data; boundary=" +:+ mwBoundary mw).

(** The store holds the default transport, the disk is empty and no
    operation is made to fail. *)
Definition world : World :=
  mkWorld [defaultTransportValue] ∅ (fun _ _ => None) [].

Definition testError : error := errorString "Test Error".

(** [&Req{err: fmt.Errorf("Test Error")}] *)
Definition bareFailed : Req := mkReq None None "" (Some testError).

(** A builder made by [New] that has recorded an error. *)
Definition failed : Req := setErr (Some testError) (New "http://example.com").

Definition view (content : bytes) (disposition : list (string * list string))
  : Response :=
  mkResponse (Some (answer content disposition)) [].

(** The view [view hello d] after a first [Body]. *)
Definition readView (d : list (string * list string)) : Response :=
  mkResponse
    (Some (mkHttpResponse 200
             (Some (list_to_map (("Content-Type", ["application/json"]) :: d)))
             (Some (mkStream [] None None true true 1 1))))
    hello.

(** A builder with five bytes announced and no way to replay them. *)
Definition unreplayable : Req :=
  setRequest (Some (mkRequest "GET" None (Some ∅) None None 5))
             (New "http://example.com").

End Sample.

(** ** More sample inputs *)

Module Cases.

(** The sample world with one file on the disk. *)
Definition withFile : World := setFiles {["/tmp/f" := Sample.hello]} Sample.world.

(** The same disk, on which closing a file fails. *)
Definition failingClose : World :=
  setFault (fun op _ => match op with OpClose => Some "close failed" | _ => None end)
           withFile.

(** The request [New] makes. *)
Definition newRequest : HttpRequest := mkRequest "GET" None (Some ∅) None None 0.

(** The client [New] makes. *)
Definition newClient : HttpClient :=
  mkClient (TransportPtr (Some DefaultTransport)) (30 * second).

(** A view whose stream cannot be read. *)
Definition brokenRead : Response :=
  mkResponse
    (Some (mkHttpResponse 200 (Some ∅)
             (Some (mkStream Sample.hello (Some "connection reset") None true false 0 0))))
    [].

(** A view whose stream reads and then fails to close. *)
Definition brokenClose : Response :=
  mkResponse
    (Some (mkHttpResponse 200 (Some ∅)
             (Some (mkStream Sample.hello None (Some "broken pipe") true false 0 0))))
    [].

(** A view whose disposition is not a media type. *)
Definition badDisposition : Response :=
  Sample.view Sample.hello [("Content-Disposition", ["/"])].

(** The zero value of [Response]. *)
Definition zeroView : Response := mkResponse None [].







End Cases.

(** * Properties *)

(** Unfolds the monad so that a call applied to a world computes. *)
Ltac run :=
  unfold Errorf, bind, ret, panic, emit, getWorld, modifyWorld in *.

(** Settles a conjunction of closed facts from left to right, so that
    the first one fixes the values the others speak of. *)
Ltac evaluate :=
  repeat (split; [vm_compute; reflexivity || discriminate |]);
  vm_compute; reflexivity || discriminate.

Section Builder.

Variable L : GoLib.

(** ** The recorded error and the verbs *)

Lemma send_recorded_error (method : string) (r : Req) (e : error) (w : World) :
  err r = Some e ->
  send L method r w = Ok ((None, Some e), r, w).
Proof. intros He. unfold send. rewrite He. reflexivity. Qed.

Lemma requestHeaderSet_present (k v : string) (r : Req) (q : HttpRequest)
      (h : gmap string (list string)) (w : World) :
  request r = Some q ->
  reqHeader q = Some h ->
  requestHeaderSet L k v r w =
    Ok (setRequest
          (Some (setReqHeader (Some (<[CanonicalMIMEHeaderKey L k := [v]]> h)) q)) r,
        w).
Proof.
  intros Hq Hh. unfold requestHeaderSet, Header_Set. rewrite Hq, Hh. reflexivity.
Qed.

Lemma requestHeaderSet_absent (k v : string) (r : Req) (w : World) :
  request r = None ->
  requestHeaderSet L k v r w = Panic NilDereference.
Proof. intros Hq. unfold requestHeaderSet. rewrite Hq. reflexivity. Qed.

Lemma PostJSON_recorded_error (r : Req) (q : HttpRequest)
      (h : gmap string (list string)) (e : error) (w : World) :
  err r = Some e ->
  request r = Some q ->
  reqHeader q = Some h ->
  exists r', PostJSON L r w = Ok ((None, Some e), r', w) /\ err r' = Some e.
Proof.
  intros He Hq Hh. eexists. split.
  - unfold PostJSON, SetContentType, bind.
    rewrite (requestHeaderSet_present _ _ _ _ _ _ Hq Hh).
    apply send_recorded_error. exact He.
  - exact He.
Qed.

(** A builder that holds a recorded error: [Get], [Post], [Put] and
    [Delete] return that error and no response, and leave the builder and
    the world as they were, so no URL is parsed and [client.Do] is not
    called.  [PostJSON] does the same once it has set the content type,
    which takes a request object with a header map; on a builder that
    has no request object it panics. *)
Lemma verbs_on_recorded_error (r : Req) (e : error) (w : World) :
  err r = Some e ->
  Get L r w = Ok ((None, Some e), r, w) /\
  Post L r w = Ok ((None, Some e), r, w) /\
  Put L r w = Ok ((None, Some e), r, w) /\
  Delete L r w = Ok ((None, Some e), r, w) /\
  (forall q h, request r = Some q -> reqHeader q = Some h ->
     exists r', PostJSON L r w = Ok ((None, Some e), r', w)) /\
  (request r = None -> PostJSON L r w = Panic NilDereference).
Proof.
  intros He. unfold Get, Post, Put, Delete.
  repeat split; try (apply send_recorded_error; exact He).
  - intros q h Hq Hh.
    destruct (PostJSON_recorded_error r q h e w He Hq Hh) as [r' [H _]].
    exists r'. exact H.
  - intros Hq. unfold PostJSON, SetContentType, bind.
    rewrite requestHeaderSet_absent by exact Hq. reflexivity.
Qed.

(** ** The body-replay invariant *)

Lemma send_guard (method : string) (r : Req) (q : HttpRequest) (w : World) :
  err r = None ->
  request r = Some q ->
  (0 < ContentLength q)%Z ->
  GetBody q = None ->
  send L method r w = Ok ((None, Some invariantError), r, w).
Proof.
  intros He Hq Hlen Hget. unfold send. rewrite He, Hq.
  rewrite (proj2 (Z.ltb_lt _ _) Hlen), Hget.
  rewrite bool_decide_eq_true_2 by reflexivity. reflexivity.
Qed.

(** What [generateURL] answers, case by case. *)
Lemma generateURL_cases (a : string) (w : World) :
  match url_Parse L (ToLower L a) with
  | inl u =>
      generateURL L a w = Ok ((Some u, None), addEvent (EvUrlParse (ToLower L a)) w)
  | inr d =>
      generateURL L a w =
        Ok ((None, Some (libError FromURL d)),
            addEvent (EvLog "URL parsing error: %s, %v")
                     (addEvent (EvUrlParse (ToLower L a)) w))
  end.
Proof.
  unfold generateURL. run.
  destruct (url_Parse L (ToLower L a)); reflexivity.
Qed.

(** Past the two guards, [send] never answers with the invariant error. *)
Lemma send_past_guard (method : string) (r : Req) (q : HttpRequest) (w : World)
      (res : option Response * option error) (r' : Req) (w' : World) :
  err r = None ->
  request r = Some q ->
  (0 <? ContentLength q)%Z && bool_decide (GetBody q = None) = false ->
  send L method r w = Ok (res, r', w') ->
  res.2 <> Some invariantError /\
  exists old, trace w' = (old ++ EvUrlParse (ToLower L (address r)) :: trace w)%list.
Proof.
  intros He Hq Hguard. unfold send. rewrite He, Hq, Hguard.
  unfold bind at 1. cbn [address setRequest].
  pose proof (generateURL_cases (address r) w) as Hgen.
  destruct (url_Parse L (ToLower L (address r))) as [u | d]; rewrite Hgen.
  - cbn [client setRequest]. destruct (client r) as [cl |]; [| discriminate].
    run. cbn [transports addEvent].
    destruct (client_Do L (transports w) cl _) as [resp | d].
    + intros [= <- <- <-]. split; [discriminate |].
      exists [EvDo method (Some u)]. reflexivity.
    + intros [= <- <- <-]. split; [discriminate |].
      exists [EvLog "Error sending HTTP request: %s, %v"; EvDo method (Some u)].
      reflexivity.
  - run. intros [= <- <- <-]. split; [discriminate |].
    exists [EvLog "Error generating URL: %s, %v"; EvLog "URL parsing error: %s, %v"].
    reflexivity.
Qed.

(** C4. With no recorded error, a content length above zero and no
    [GetBody], [send] (and so every verb) answers with the invariant
    error and no response, and leaves the builder and the world as they
    were: nothing is parsed or sent.  With a content length of zero the
    answer is never that error, and the address goes to the parser. *)
Theorem send_requires_GetBody (r : Req) (q : HttpRequest) (w : World) :
  err r = None ->
  request r = Some q ->
  ((0 < ContentLength q)%Z -> GetBody q = None ->
     (forall method, send L method r w = Ok ((None, Some invariantError), r, w)) /\
     Get L r w = Ok ((None, Some invariantError), r, w) /\
     Post L r w = Ok ((None, Some invariantError), r, w) /\
     Put L r w = Ok ((None, Some invariantError), r, w) /\
     Delete L r w = Ok ((None, Some invariantError), r, w) /\
     (forall h, reqHeader q = Some h ->
        exists r', PostJSON L r w = Ok ((None, Some invariantError), r', w))) /\
  (ContentLength q = 0%Z ->
     forall method res r' w',
       send L method r w = Ok (res, r', w') ->
       res.2 <> Some invariantError /\
       exists old, trace w' = (old ++ EvUrlParse (ToLower L (address r)) :: trace w)%list).
Proof.
  intros He Hq. split.
  - intros Hlen Hget. unfold Get, Post, Put, Delete.
    repeat split; try (intros; apply (send_guard _ r q); assumption).
    intros h Hh. eexists.
    unfold PostJSON, SetContentType, bind.
    rewrite (requestHeaderSet_present _ _ _ _ _ _ Hq Hh).
    eapply send_guard; [exact He | reflexivity | exact Hlen | exact Hget].
  - intros Hzero method res r' w' Hsend.
    apply (send_past_guard method r q w res r' w' He Hq); [| exact Hsend].
    rewrite Hzero. reflexivity.
Qed.

(** ** The proxy and the transports *)

(** C9. On a builder that has a client, [SetProxy] with an address that
    parses makes the client point to an object that was not in the store
    before, equal to [http.Transport{}] but for its proxy function: it
    has no TLS configuration, whatever [SetTLSConfig] wrote into the
    transport the client pointed to, and it is none of the transports
    that existed, which stay in the store as they were. *)
Theorem SetProxy_installs_fresh_transport
        (u : string) (proxyURL : URL) (r : Req) (cl : HttpClient) (w : World) :
  client r = Some cl ->
  url_Parse L u = inl proxyURL ->
  let l := length (transports w) in
  let installed := mkTransport (Some (ProxyURL proxyURL)) None 0 0 0 0 false in
  let r' := setClient (Some (mkClient (TransportPtr (Some l)) (Timeout cl))) r in
  exists w',
    SetProxy L u r w = Ok (r', w') /\
    transports w !! l = None /\
    transports w' = (transports w ++ [installed])%list /\
    clientTransport r' w' = Some installed /\
    TLSClientConfig installed = None /\
    (forall l' t, transports w !! l' = Some t ->
                  l' <> l /\ transports w' !! l' = Some t).
Proof.
  intros Hcl Hparse l installed r'.
  eexists. split.
  { unfold SetProxy, allocTransport. run. rewrite Hparse, Hcl. reflexivity. }
  cbn [transports setTransports addEvent].
  assert (Hfresh : transports w !! l = None)
    by (apply lookup_ge_None; unfold l; lia).
  split; [exact Hfresh |].
  split; [reflexivity |].
  split.
  { unfold clientTransport, r'. cbn.
    rewrite lookup_app_r by (unfold l; lia).
    unfold l. rewrite Nat.sub_diag. reflexivity. }
  split; [reflexivity |].
  intros l' t Hl'. split.
  - intros ->. rewrite Hfresh in Hl'. discriminate.
  - apply lookup_app_l_Some. exact Hl'.
Qed.

(** ** Calls that do not look at a field of the builder *)

Section Frame.

Variable f : Req -> Req.
Hypothesis f_request : forall r, request (f r) = request r.
Hypothesis f_client : forall r, client (f r) = client r.
Hypothesis f_setRequest : forall q r, f (setRequest q r) = setRequest q (f r).
Hypothesis f_setClient : forall c r, f (setClient c r) = setClient c (f r).

Lemma requestHeaderSet_frame (k v : string) (r : Req) (w : World) :
  requestHeaderSet L k v (f r) w = mapReq f (requestHeaderSet L k v r w).
Proof.
  unfold requestHeaderSet. rewrite f_request.
  destruct (request r) as [q |]; [| reflexivity].
  destruct (Header_Set L (reqHeader q) k v); [| reflexivity].
  cbn. rewrite f_setRequest. reflexivity.
Qed.

Lemma rangeHeaders_frame (headers : list (string * string)) :
  forall r w, rangeHeaders L headers (f r) w = mapReq f (rangeHeaders L headers r w).
Proof.
  induction headers as [| [k v] rest IH]; intros r w; [reflexivity |].
  cbn [rangeHeaders]. unfold bind.
  rewrite requestHeaderSet_frame.
  destruct (requestHeaderSet L k v r w) as [[r1 w1] | p]; [| reflexivity].
  cbn [mapReq]. apply IH.
Qed.

Lemma configure_frame (c : config) (r : Req) (w : World) :
  ungated L c ->
  configure L c (f r) w = mapReq f (configure L c r w).
Proof.
  destruct c; cbn [configure ungated]; intros Hc.
  - unfold SetHeaders. destruct (0 <? length headers)%nat;
      [apply rangeHeaders_frame | reflexivity].
  - apply requestHeaderSet_frame.
  - unfold SetTimeout. rewrite f_client.
    destruct (client r); [| reflexivity]. cbn. rewrite f_setClient. reflexivity.
  - unfold SetTLSConfig. rewrite f_client.
    destruct (client r) as [cl |]; [| reflexivity].
    destruct (Transport cl) as [| [l |]]; try reflexivity.
    destruct (transports w !! l); reflexivity.
  - unfold SetTransport. rewrite f_client.
    destruct (client r); [| reflexivity]. cbn. rewrite f_setClient. reflexivity.
  - destruct Hc as [proxyURL Hparse]. unfold SetProxy, allocTransport. run.
    rewrite Hparse, f_client.
    destruct (client r); [| reflexivity]. cbn. rewrite f_setClient. reflexivity.
  - unfold SetBody. rewrite f_request.
    destruct (request r); [| reflexivity]. cbn. rewrite f_setRequest. reflexivity.
  - apply requestHeaderSet_frame.
  - destruct Hc.
Qed.

Hypothesis f_err : forall r, err (f r) = err r.
Hypothesis f_setErr : forall e r, f (setErr e r) = setErr e (f r).

Lemma SetForm_frame (files fields : list (list (string * string)))
      (r : Req) (w : World) :
  SetForm L files fields (f r) w = mapReq f (SetForm L files fields r w).
Proof.
  unfold SetForm. rewrite f_err.
  destruct (err r); [reflexivity |].
  unfold bind.
  destruct (rangeFiles L files (multipart_NewWriter L) w) as [[[w1 | e] wd] | p];
    [| cbn; rewrite f_setErr; reflexivity | reflexivity].
  destruct (rangeFields L fields w1 wd) as [[[w2 | e] wd'] | p];
    [| cbn; rewrite f_setErr; reflexivity | reflexivity].
  destruct (mw_Close L w2) as [w3 [d |]].
  - cbn. rewrite f_setErr. reflexivity.
  - rewrite f_request. destruct (request r) as [q |]; [| reflexivity].
    destruct (Header_Set L _ _ _); [| reflexivity].
    cbn. rewrite f_setRequest. reflexivity.
Qed.

Lemma configure_frame_all (c : config) (r : Req) (w : World) :
  configure L c (f r) w = mapReq f (configure L c r w).
Proof.
  destruct c; try (apply configure_frame; exact I).
  - destruct (url_Parse L u) as [proxyURL | d] eqn:Hparse.
    + apply configure_frame. exists proxyURL. exact Hparse.
    + cbn [configure]. unfold SetProxy. run. rewrite Hparse.
      cbn. rewrite f_setErr. reflexivity.
  - apply SetForm_frame.
Qed.

End Frame.

(** ** Builders made by [New] stay well formed *)

Lemma New_wellFormed (a : string) : wellFormed (New a).
Proof. split; [exists (mkRequest "GET" None (Some ∅) None None 0), ∅ | eexists]; split; reflexivity || exact I. Qed.

Lemma requestHeaderSet_wellFormed (k v : string) (r r' : Req) (w w' : World) :
  wellFormed r -> requestHeaderSet L k v r w = Ok (r', w') -> wellFormed r'.
Proof.
  intros [[q [h [Hq Hh]]] Hcl].
  rewrite (requestHeaderSet_present k v r q h w Hq Hh). intros [= <- <-].
  split; [| exact Hcl]. do 2 eexists. split; reflexivity.
Qed.

Lemma rangeHeaders_wellFormed (headers : list (string * string)) :
  forall r r' w w',
    wellFormed r -> rangeHeaders L headers r w = Ok (r', w') -> wellFormed r'.
Proof.
  induction headers as [| [k v] rest IH]; intros r r' w w' Hwf.
  - intros [= <- <-]. exact Hwf.
  - cbn [rangeHeaders]. unfold bind.
    destruct (requestHeaderSet L k v r w) as [[r1 w1] | p] eqn:Hset; [| discriminate].
    apply IH. exact (requestHeaderSet_wellFormed k v r r1 w w1 Hwf Hset).
Qed.

Lemma configure_wellFormed (c : config) (r r' : Req) (w w' : World) :
  wellFormed r -> configure L c r w = Ok (r', w') -> wellFormed r'.
Proof.
  intros Hwf. pose proof Hwf as [[q [h [Hq Hh]]] [cl Hcl]].
  destruct c as [hs | ct | d | tc | t | u | b | | fs fds]; cbn [configure].
  - unfold SetHeaders. destruct (0 <? length hs)%nat.
    + apply rangeHeaders_wellFormed. exact Hwf.
    + intros [= <- <-]. exact Hwf.
  - apply requestHeaderSet_wellFormed. exact Hwf.
  - unfold SetTimeout. rewrite Hcl. intros [= <- <-].
    split; [exists q, h; split; assumption | eexists; reflexivity].
  - unfold SetTLSConfig. rewrite Hcl.
    destruct (Transport cl) as [| [l |]]; try discriminate.
    destruct (transports w !! l); [| discriminate].
    intros [= <- <-]. exact Hwf.
  - unfold SetTransport. rewrite Hcl. intros [= <- <-].
    split; [exists q, h; split; assumption | eexists; reflexivity].
  - unfold SetProxy, allocTransport. run. rewrite Hcl.
    destruct (url_Parse L u); intros [= <- <-].
    + split; [exists q, h; split; assumption | eexists; reflexivity].
    + split; [exists q, h; split; assumption | exists cl; exact Hcl].
  - unfold SetBody. rewrite Hq. intros [= <- <-].
    split; [| exists cl; exact Hcl]. do 2 eexists. split; [reflexivity | exact Hh].
  - apply requestHeaderSet_wellFormed. exact Hwf.
  - unfold SetForm. destruct (err r); [intros [= <- <-]; exact Hwf |].
    unfold bind.
    destruct (rangeFiles L fs _ w) as [[[w1 | e] wd] | p]; [| | discriminate].
    2: { intros [= <- <-]. split; [exists q, h; split; assumption | exists cl; exact Hcl]. }
    destruct (rangeFields L fds w1 wd) as [[[w2 | e] wd'] | p]; [| | discriminate].
    2: { intros [= <- <-]. split; [exists q, h; split; assumption | exists cl; exact Hcl]. }
    destruct (mw_Close L w2) as [w3 [d |]].
    + run. intros [= <- <-].
      split; [exists q, h; split; assumption | exists cl; exact Hcl].
    + rewrite Hq. cbn [reqHeader setReqBody]. rewrite Hh. cbn [Header_Set].
      intros [= <- <-]. split; [| exists cl; exact Hcl].
      do 2 eexists. split; reflexivity.
Qed.

Lemma setErr_twice (r : Req) (e : error) :
  err r = Some e -> r = setErr (Some e) (setErr None r).
Proof. destruct r; cbn; intros ->; reflexivity. Qed.

Lemma setAddress_same (r : Req) : r = setAddress (address r) r.
Proof. destruct r; reflexivity. Qed.

(** C1, as the code has it.  On a builder that holds a recorded error,
    [SetForm] returns the builder and the world as they were.  The other
    configuration calls carry no test of the error field: [SetHeaders],
    [SetContentType], [SetTimeout], [SetTLSConfig], [SetTransport],
    [SetBody], [SetBodyXML], and [SetProxy] with an address that parses,
    do what they do on the same builder without the error, and leave the
    recorded error in place. *)
Theorem recorded_error_gates_SetForm_only (r : Req) (e : error) (w : World) :
  err r = Some e ->
  (forall files fields, SetForm L files fields r w = Ok (r, w)) /\
  (forall c, ungated L c ->
     configure L c r w =
       mapReq (setErr (Some e)) (configure L c (setErr None r) w)) /\
  (forall c r' w', ungated L c ->
     configure L c r w = Ok (r', w') -> err r' = Some e).
Proof.
  intros He.
  assert (Hframe : forall c, ungated L c ->
            configure L c r w =
              mapReq (setErr (Some e)) (configure L c (setErr None r) w)).
  { intros c Hc. rewrite (setErr_twice r e He) at 1.
    apply configure_frame; try exact Hc; reflexivity. }
  split; [| split].
  - intros files fields. unfold SetForm. rewrite He. reflexivity.
  - exact Hframe.
  - intros c r' w' Hc. rewrite (Hframe c Hc).
    destruct (configure L c (setErr None r) w) as [[r0 w0] | p]; [| discriminate].
    cbn. intros [= <- <-]. reflexivity.
Qed.

(** ** The address *)

(** C8. [New] stores the address as given and records no error, for
    every string.  No configuration call looks at the address: run on a
    builder with another address it has the same outcome, with that
    address in the builder.  [send], past its two guards, hands the
    lower-cased address to the parser before anything else; when the
    parser fails, its error comes back as it is, with no response and
    with no call of [client.Do]; when it succeeds, the parsed URL is the
    one of the request. *)
Theorem address_checked_at_dispatch_only (a : string) :
  (err (New a) = None /\ address (New a) = a) /\
  (forall c a' r w,
     configure L c (setAddress a' r) w =
       mapReq (setAddress a') (configure L c r w)) /\
  (forall c r r' w w',
     configure L c r w = Ok (r', w') -> address r' = address r) /\
  (forall method r q w,
     err r = None ->
     request r = Some q ->
     (0 <? ContentLength q)%Z && bool_decide (GetBody q = None) = false ->
     address r = a ->
     match url_Parse L (ToLower L a) with
     | inr d =>
         send L method r w =
           Ok ((None, Some (libError FromURL d)),
               setRequest (Some (setMethod method q)) r,
               addEvent (EvLog "Error generating URL: %s, %v")
                 (addEvent (EvLog "URL parsing error: %s, %v")
                    (addEvent (EvUrlParse (ToLower L a)) w)))
     | inl u =>
         forall res r' w',
           send L method r w = Ok (res, r', w') ->
           (q' ← request r'; reqURL q') = Some u /\
           exists old,
             trace w' = (old ++ EvUrlParse (ToLower L a) :: trace w)%list
     end).
Proof.
  assert (Hframe : forall c a' r w,
            configure L c (setAddress a' r) w =
              mapReq (setAddress a') (configure L c r w))
    by (intros; apply configure_frame_all; reflexivity).
  split; [split; reflexivity |].
  split; [exact Hframe |].
  split.
  { intros c r r' w w' Hrun.
    pose proof (Hframe c (address r) r w) as H.
    rewrite <- setAddress_same, Hrun in H. cbn in H.
    injection H as ->. reflexivity. }
  intros method r q w He Hq Hguard <-.
  pose proof (generateURL_cases (address r) w) as Hgen.
  destruct (url_Parse L (ToLower L (address r))) as [u | d];
    unfold send; rewrite He, Hq, Hguard; unfold bind at 1;
    cbn [address setRequest]; rewrite Hgen.
  - intros res r' w'. cbn [client setRequest].
    destruct (client r) as [cl |]; [| discriminate].
    run. cbn [transports addEvent].
    destruct (client_Do L (transports w) cl _) as [resp | d];
      intros [= <- <- <-]; (split; [reflexivity |]).
    + exists [EvDo method (Some u)]. reflexivity.
    + exists [EvLog "Error sending HTTP request: %s, %v"; EvDo method (Some u)].
      reflexivity.
  - reflexivity.
Qed.

End Builder.

Section Form.

Variable L : GoLib.

(** ** The two loops of [SetForm] as one pass over the entries *)

Lemma runEntries_app (xs ys : list entry) :
  forall mw w,
    runEntries L (xs ++ ys) mw w =
      match runEntries L xs mw w with
      | Ok (inl mw', w') => runEntries L ys mw' w'
      | Ok (inr e, w') => Ok (inr e, w')
      | Panic p => Panic p
      end.
Proof.
  induction xs as [| x xs IH]; intros mw w; [reflexivity |].
  cbn [app runEntries]. unfold bind.
  destruct (runEntry L x mw w) as [[[mw' | e] w'] | p]; try reflexivity.
  apply IH.
Qed.

Lemma rangeFile_runEntries (file : list (string * string)) :
  forall mw w,
    rangeFile L file mw w =
      runEntries L (map (fun kv => FileEntry kv.1 kv.2) file) mw w.
Proof.
  induction file as [| [key value] rest IH]; intros mw w; [reflexivity |].
  cbn [rangeFile map runEntries runEntry fst snd]. unfold bind.
  destruct (createFormFile L mw key value w) as [[[mw' [e |]] w'] | p];
    try reflexivity.
  cbn. apply IH.
Qed.

Lemma rangeFiles_runEntries (files : list (list (string * string))) :
  forall mw w,
    rangeFiles L files mw w =
      runEntries L (map (fun kv => FileEntry kv.1 kv.2) (concat files)) mw w.
Proof.
  induction files as [| file rest IH]; intros mw w; [reflexivity |].
  cbn [rangeFiles concat]. rewrite map_app, runEntries_app.
  unfold bind. rewrite rangeFile_runEntries.
  destruct (runEntries L _ mw w) as [[[mw' | e] w'] | p]; try reflexivity.
  apply IH.
Qed.

Lemma rangeField_runEntries (field : list (string * string)) :
  forall mw w,
    rangeField L field mw w =
      runEntries L (map (fun kv => FieldEntry kv.1 kv.2) field) mw w.
Proof.
  induction field as [| [k v] rest IH]; intros mw w; [reflexivity |].
  cbn [rangeField map runEntries runEntry fst snd]. unfold bind.
  destruct (mw_WriteField L mw k v) as [mw' [d |]]; [reflexivity |].
  cbn. apply IH.
Qed.

Lemma rangeFields_runEntries (fields : list (list (string * string))) :
  forall mw w,
    rangeFields L fields mw w =
      runEntries L (map (fun kv => FieldEntry kv.1 kv.2) (concat fields)) mw w.
Proof.
  induction fields as [| field rest IH]; intros mw w; [reflexivity |].
  cbn [rangeFields concat]. rewrite map_app, runEntries_app.
  unfold bind. rewrite rangeField_runEntries.
  destruct (runEntries L _ mw w) as [[[mw' | e] w'] | p]; try reflexivity.
  apply IH.
Qed.



(** What makes a file entry fail: the part cannot be created, ... *)
Lemma runEntry_part_creation_fails (key value d : string) (mw mw' : MWriter) (w : World) :
  mw_CreateFormFile L mw key value = (mw', Some d) ->
  exists w', runEntry L (FileEntry key value) mw w = Ok (inr (libError FromMultipart d), w').
Proof.
  intros H. eexists. cbn [runEntry]. unfold createFormFile. run. rewrite H.
  reflexivity.
Qed.

(** ... the file cannot be opened, ... *)
Lemma runEntry_open_fails (key value : string) (mw mw' : MWriter) (w : World) :
  mw_CreateFormFile L mw key value = (mw', None) ->
  fault w OpOpen value <> None \/ files w !! value = None ->
  exists e w', runEntry L (FileEntry key value) mw w = Ok (inr e, w').
Proof.
  intros H Hopen. cbn [runEntry]. unfold createFormFile, os_Open. run. rewrite H.
  cbn [fault files addEvent].
  destruct (fault w OpOpen value) as [d |]; [eexists; eexists; reflexivity |].
  destruct Hopen as [Hf | Hmissing]; [congruence |].
  rewrite Hmissing. eexists; eexists; reflexivity.
Qed.

(** ... or its contents cannot be copied into the part. *)
Lemma runEntry_copy_fails (key value : string) (mw mw' : MWriter) (w : World)
      (content : bytes) :
  mw_CreateFormFile L mw key value = (mw', None) ->
  fault w OpOpen value = None ->
  files w !! value = Some content ->
  fault w OpRead value <> None \/ (mw_PartWrite L mw' content).2 <> None ->
  exists e w', runEntry L (FileEntry key value) mw w = Ok (inr e, w').
Proof.
  intros H Hopen Hfile Hcopy. cbn [runEntry].
  unfold createFormFile, os_Open, io_Copy_part, deferredClose. run. rewrite H.
  cbn [fault files addEvent]. rewrite Hopen, Hfile. cbn [fault addEvent].
  destruct (fault w OpRead value) as [d |].
  - cbn [fault addEvent].
    destruct (fault w OpClose value); eexists; eexists; reflexivity.
  - destruct Hcopy as [Hf | Hwrite]; [congruence |].
    destruct (mw_PartWrite L mw' content) as [mw2 [d |]]; [| cbn in Hwrite; congruence].
    cbn [fmap option_fmap option_map fault addEvent].
    destruct (fault w OpClose value); eexists; eexists; reflexivity.
Qed.



End Form.

Section LowerCase.

Variable L : GoLib.

(** ** Lower-casing *)














End LowerCase.

Section ViewFacts.

Variable L : GoLib.

(** ** The cached body *)

Lemma length_zero_iff {A} (l : list A) : (length l =? 0)%nat = true <-> l = [].
Proof. destruct l; cbn; split; congruence. Qed.

Lemma data_setStream (s : Stream) (v : Response) : data (setStream s v) = data v.
Proof. unfold setStream. destruct (resp v); reflexivity. Qed.

Lemma streamOf_setStream (s s0 : Stream) (v : Response) :
  streamOf v = Some s0 -> streamOf (setStream s v) = Some s.
Proof.
  unfold streamOf, setStream. destruct (resp v) as [h |]; [| discriminate].
  reflexivity.
Qed.

Lemma streamOf_setData (d : bytes) (v : Response) :
  streamOf (setData d v) = streamOf v.
Proof. reflexivity. Qed.

(** Once [data] is not empty, [readBody] answers from it and touches
    neither the view nor the world. *)
Lemma readBody_cached (v : Response) (w : World) :
  data v <> [] -> readBody v w = Ok ((data v, None), v, w).
Proof.
  intros H. unfold readBody.
  destruct (length (data v) =? 0)%nat eqn:Hlen; [| reflexivity].
  apply length_zero_iff in Hlen. contradiction.
Qed.

(** A [readBody] that succeeds leaves the world alone and the bytes it
    returns in [data]. *)
Lemma readBody_success (v v1 : Response) (w w1 : World) (b : bytes) :
  readBody v w = Ok ((b, None), v1, w1) -> w1 = w /\ data v1 = b.
Proof.
  unfold readBody.
  destruct (length (data v) =? 0)%nat; cbn [negb].
  2: { intros [= <- <- <-]. split; reflexivity. }
  destruct (resp v) as [h |]; [| run; discriminate].
  destruct (respBody h) as [s |]; [| run; discriminate].
  destruct (ReadAll s) as [[b0 | e] s1]; [| run; discriminate].
  destruct (StreamClose s1) as [[e |] s2]; [run; discriminate |].
  intros [= <- <- <-]. split; [reflexivity |].
  rewrite data_setStream. reflexivity.
Qed.

(** [readBody] writes to the log only. *)
Lemma readBody_world (v v1 : Response) (w w1 : World)
      (res : bytes * option error) :
  readBody v w = Ok (res, v1, w1) ->
  files w1 = files w /\ fault w1 = fault w /\ transports w1 = transports w.
Proof.
  unfold readBody.
  destruct (length (data v) =? 0)%nat; cbn [negb].
  2: { intros [= _ _ <-]. repeat split. }
  destruct (resp v) as [h |]; [| run; intros [= _ _ <-]; repeat split].
  destruct (respBody h) as [s |]; [| run; intros [= _ _ <-]; repeat split].
  destruct (ReadAll s) as [[b0 | e] s1]; [| run; intros [= _ _ <-]; repeat split].
  destruct (StreamClose s1) as [[e |] s2]; run; intros [= _ _ <-]; repeat split.
Qed.

(** The first read of a view that has cached nothing reads its stream
    once and closes it once. *)
Lemma readBody_first (v v1 : Response) (w w1 : World) (b : bytes) (s : Stream) :
  data v = [] ->
  streamOf v = Some s ->
  readBody v w = Ok ((b, None), v1, w1) ->
  exists s1, streamOf v1 = Some s1 /\
             reads s1 = S (reads s) /\ closes s1 = S (closes s) /\
             b = pending s.
Proof.
  intros Hdata Hs. unfold readBody. rewrite Hdata. cbn [length Nat.eqb negb].
  pose proof Hs as Hs'. unfold streamOf in Hs'.
  destruct (resp v) as [h |] eqn:Hresp; [| discriminate]. cbn in Hs'. rewrite Hs'.
  unfold ReadAll.
  destruct (closed s && failsAfterClose s); [run; discriminate |].
  destruct (readFault s); [run; discriminate |].
  unfold StreamClose. cbn [closeFault drained countRead].
  destruct (closeFault s); cbn [fmap option_fmap option_map]; [run; discriminate |].
  intros [= <- <- <-]. eexists. split.
  - eapply streamOf_setStream. rewrite streamOf_setData.
    eapply streamOf_setStream. exact Hs.
  - cbn. repeat split.
Qed.

Lemma Body_success (v v1 : Response) (w w1 : World) (b : bytes) :
  Body v w = Ok ((b, None), v1, w1) -> readBody v w = Ok ((b, None), v1, w1).
Proof.
  unfold Body. unfold bind at 1.
  destruct (readBody v w) as [[[[b0 [e |]] v0] w0] | p]; run; try discriminate.
  intros [= <- <- <-]. reflexivity.
Qed.

Lemma Body_cached (v : Response) (w : World) :
  data v <> [] -> Body v w = Ok ((data v, None), v, w).
Proof. intros H. unfold Body, bind. rewrite (readBody_cached v w H). reflexivity. Qed.

Lemma SaveFile_cached (filePath : string) (v : Response) (w : World) :
  data v <> [] -> exists res w', SaveFile filePath v w = Ok ((res, v), w').
Proof.
  intros H. unfold SaveFile. unfold bind at 1. rewrite (readBody_cached v w H).
  destruct (length (data v) =? 0)%nat; [eexists; eexists; reflexivity |].
  unfold os_Create, io_Copy_file, file_Sync. run. cbn [fault addEvent setFiles].
  destruct (fault w OpCreate filePath); [eexists; eexists; reflexivity |].
  cbn [fault addEvent setFiles].
  destruct (fault w OpWrite filePath); [eexists; eexists; reflexivity |].
  cbn [fault addEvent setFiles].
  destruct (fault w OpSync filePath); eexists; eexists; reflexivity.
Qed.

Lemma DownloadFile_cached (downloadDir : string) (v : Response) (w : World) :
  data v <> [] -> exists res w', DownloadFile L downloadDir v w = Ok ((res, v), w').
Proof.
  intros H. unfold DownloadFile.
  destruct (Headers (Some v)); [| run; eexists; eexists; reflexivity].
  destruct (String.eqb _ ""); [run; eexists; eexists; reflexivity |].
  destruct (mime_ParseMediaType L _) as [[mediatype params] | d];
    [| run; eexists; eexists; reflexivity].
  destruct (String.eqb _ ""); [run; eexists; eexists; reflexivity |].
  unfold bind at 1.
  destruct (SaveFile_cached (path_Join L downloadDir (default "" (params !! "filename")))
                            v w H) as [res [w' Hsave]].
  rewrite Hsave. destruct res; run; eexists; eexists; reflexivity.
Qed.

Lemma runBodyCalls_cached (cs : list bodyCall) (v : Response) :
  data v <> [] -> forall w, exists w', runBodyCalls L cs v w = Ok (v, w').
Proof.
  intros H. induction cs as [| c cs IH]; intros w; [eexists; reflexivity |].
  cbn [runBodyCalls]. unfold bind at 1.
  assert (Hc : exists w1, runBodyCall L c v w = Ok (v, w1)).
  { destruct c; cbn [runBodyCall]; unfold bind, ret.
    - rewrite (Body_cached v w H). eexists; reflexivity.
    - destruct (SaveFile_cached filePath v w H) as [res [w1 ->]]. eexists; reflexivity.
    - destruct (DownloadFile_cached downloadDir v w H) as [res [w1 ->]].
      eexists; reflexivity. }
  destruct Hc as [w1 ->]. apply IH.
Qed.

Lemma Close_closes (v : Response) (s : Stream) (w : World) :
  streamOf v = Some s ->
  exists res v' s' w',
    Close (Some v) w = Ok ((res, Some v'), w') /\
    streamOf v' = Some s' /\
    closes s' = S (closes s) /\ reads s' = reads s /\ data v' = data v.
Proof.
  intros Hs. unfold Close. rewrite Hs. unfold StreamClose.
  destruct (closeFault s); cbn [fmap option_fmap option_map]; run;
    do 4 eexists; (split; [reflexivity |]);
    (split; [eapply streamOf_setStream; exact Hs |]);
    rewrite data_setStream; repeat split.
Qed.

(** C2, as the code has it.  After a [Body] call that succeeded with
    bytes [b], not empty: every later [Body] returns [b] and no error;
    no sequence of [Body], [SaveFile] and [DownloadFile] calls changes
    the view, so none reads or closes the stream again; if that first
    call found nothing cached, it has read the stream once and closed it
    once.  [Close] has no memory of this: called afterwards, on a view
    with a stream, it closes the stream once more. *)
Theorem Body_cached_after_first_read
        (v v1 : Response) (w w1 : World) (b : bytes) :
  Body v w = Ok ((b, None), v1, w1) ->
  b <> [] ->
  (forall w', Body v1 w' = Ok ((b, None), v1, w')) /\
  (forall cs w', exists w'', runBodyCalls L cs v1 w' = Ok (v1, w'')) /\
  (forall s, data v = [] -> streamOf v = Some s ->
     exists s1, streamOf v1 = Some s1 /\
                reads s1 = S (reads s) /\ closes s1 = S (closes s)) /\
  (forall s1 w', streamOf v1 = Some s1 ->
     exists res v2 s2 w'',
       Close (Some v1) w' = Ok ((res, Some v2), w'') /\
       streamOf v2 = Some s2 /\
       closes s2 = S (closes s1) /\ reads s2 = reads s1).
Proof.
  intros Hbody Hb. apply Body_success in Hbody.
  destruct (readBody_success v v1 w w1 b Hbody) as [-> Hdata].
  assert (Hcached : data v1 <> []) by (rewrite Hdata; exact Hb).
  split; [intros w'; rewrite <- Hdata; apply Body_cached; exact Hcached |].
  split; [intros cs w'; apply runBodyCalls_cached; exact Hcached |].
  split.
  - intros s Hempty Hs.
    destruct (readBody_first v v1 w w b s Hempty Hs Hbody) as [s1 [H1 [H2 [H3 _]]]].
    exists s1. repeat split; assumption.
  - intros s1 w' Hs1.
    destruct (Close_closes v1 s1 w' Hs1) as [res [v2 [s2 [w'' [H1 [H2 [H3 [H4 _]]]]]]]].
    exists res, v2, s2, w''. repeat split; assumption.
Qed.

(** ** Saving the body *)

Lemma SaveFile_empty (filePath : string) (v v1 : Response) (w : World) :
  readBody v w = Ok (([], None), v1, w) ->
  SaveFile filePath v w = Ok ((Some (emptyFileError filePath), v1), w).
Proof. intros H. unfold SaveFile. unfold bind at 1. rewrite H. reflexivity. Qed.

Lemma SaveFile_written (filePath : string) (v v1 : Response) (w : World) (b : bytes) :
  readBody v w = Ok ((b, None), v1, w) ->
  b <> [] ->
  fault w OpCreate filePath = None ->
  fault w OpWrite filePath = None ->
  exists res w2,
    SaveFile filePath v w = Ok ((res, v1), w2) /\
    files w2 !! filePath = Some b /\
    (fault w OpSync filePath = None -> res = None).
Proof.
  intros Hread Hb Hcreate Hwrite. unfold SaveFile. unfold bind at 1. rewrite Hread.
  destruct (length b =? 0)%nat eqn:Hlen; [apply length_zero_iff in Hlen; contradiction |].
  unfold os_Create, io_Copy_file, file_Sync. run. cbn [fault addEvent setFiles].
  rewrite Hcreate. cbn [fault addEvent setFiles]. rewrite Hwrite.
  cbn [fault addEvent setFiles files].
  destruct (fault w OpSync filePath); cbn [fmap option_fmap option_map];
    do 2 eexists; (split; [reflexivity |]); cbn [files addEvent setFiles];
    (split; [apply lookup_insert_eq | congruence]).
Qed.

(** A [SaveFile] that reports no error has written the body it read. *)
Lemma SaveFile_success (filePath : string) (v v' : Response) (w w' : World) :
  SaveFile filePath v w = Ok ((None, v'), w') ->
  readBody v w = Ok ((data v', None), v', w) /\
  data v' <> [] /\
  files w' !! filePath = Some (data v').
Proof.
  unfold SaveFile. unfold bind at 1.
  destruct (readBody v w) as [[[[b [e |]] v0] w0] | p] eqn:Hread;
    [run; discriminate | | discriminate].
  destruct (readBody_success v v0 w w0 b Hread) as [-> Hdata].
  destruct (length b =? 0)%nat eqn:Hlen; [discriminate |].
  unfold os_Create, io_Copy_file, file_Sync. run. cbn [fault addEvent setFiles].
  destruct (fault w OpCreate filePath); [discriminate |].
  cbn [fault addEvent setFiles].
  destruct (fault w OpWrite filePath); [discriminate |].
  cbn [fault addEvent setFiles].
  destruct (fault w OpSync filePath); cbn [fmap option_fmap option_map];
    [discriminate |].
  intros [= <- <-]. rewrite Hdata. split; [reflexivity |]. split.
  - intros ->. discriminate.
  - cbn [files addEvent setFiles]. apply lookup_insert_eq.
Qed.

(** C7. When the body [readBody] hands over is empty, [SaveFile] fails
    and leaves the world as it was: no file is created.  When it is not
    empty and creating and writing the file succeed, the file holds
    exactly those bytes, and the call reports no error unless [Sync]
    fails. *)
Theorem SaveFile_writes_materialized_body
        (filePath : string) (v v1 : Response) (w w1 : World) (b : bytes) :
  readBody v w = Ok ((b, None), v1, w1) ->
  (b = [] ->
     SaveFile filePath v w = Ok ((Some (emptyFileError filePath), v1), w)) /\
  (b <> [] ->
     fault w OpCreate filePath = None ->
     fault w OpWrite filePath = None ->
     exists res w2,
       SaveFile filePath v w = Ok ((res, v1), w2) /\
       files w2 !! filePath = Some b /\
       data v1 = b /\
       (fault w OpSync filePath = None -> res = None)).
Proof.
  intros Hread.
  destruct (readBody_success v v1 w w1 b Hread) as [-> Hdata].
  split.
  - intros ->. apply SaveFile_empty. exact Hread.
  - intros Hb Hcreate Hwrite.
    destruct (SaveFile_written filePath v v1 w b Hread Hb Hcreate Hwrite)
      as [res [w2 [H1 [H2 H3]]]].
    exists res, w2. repeat split; assumption.
Qed.

(** ** Downloading *)

Lemma Header_Get_absent (m : gmap string (list string)) (key : string) :
  m !! CanonicalMIMEHeaderKey L key = None -> Header_Get L (Some m) key = "".
Proof. intros H. unfold Header_Get. rewrite H. reflexivity. Qed.

Lemma eqb_empty (s : string) : String.eqb s "" = false <-> s <> "".
Proof. apply String.eqb_neq. Qed.

(** C6. [DownloadFile] on a view and a directory.  Without a
    [Content-Disposition] value it fails, with the error
    "content-disposition header missing" when the view has a header map
    and "http response headers missing" when it has none, and leaves the
    view and the files as they were.  When the disposition parses and
    has no [filename] parameter it fails with "filename missing in
    content-disposition", again without touching a file.  When it
    reports no error, the path it returns is [path.Join] of the
    directory and the [filename] parameter, the file at that path holds
    the body that was read, which is the view's cached body, and the
    content type it returns is the [Content-Type] header value, the
    empty string when the header map has no such key.  It reports no
    error as soon as the disposition names a file and [SaveFile] on the
    joined path succeeds, whatever the content type is. *)
Theorem DownloadFile_cases (downloadDir : string) (v : Response) (w : World) :
  let headers := Headers (Some v) in
  let contentType := Header_Get L headers "Content-Type" in
  let disposition := Header_Get L headers "Content-Disposition" in
  (disposition = "" ->
     exists ct e w',
       DownloadFile L downloadDir v w = Ok ((ct, "", Some e), v, w') /\
       (headers = None -> e = errorString "http response headers missing") /\
       (headers <> None ->
          e = errorString "content-disposition header missing" /\
          ct = contentType) /\
       files w' = files w) /\
  (forall mediatype params,
     disposition <> "" ->
     mime_ParseMediaType L disposition = inl (mediatype, params) ->
     params !! "filename" = None ->
     exists w',
       DownloadFile L downloadDir v w =
         Ok ((contentType, "",
              Some (errorString "filename missing in content-disposition")), v, w') /\
       files w' = files w) /\
  (forall ct filePath v' w',
     DownloadFile L downloadDir v w = Ok ((ct, filePath, None), v', w') ->
     exists mediatype params fileName,
       mime_ParseMediaType L disposition = inl (mediatype, params) /\
       params !! "filename" = Some fileName /\
       filePath = path_Join L downloadDir fileName /\
       ct = contentType /\
       readBody v w = Ok ((data v', None), v', w) /\
       data v' <> [] /\
       files w' !! filePath = Some (data v')) /\
  (forall mediatype params fileName v' w',
     mime_ParseMediaType L disposition = inl (mediatype, params) ->
     disposition <> "" ->
     params !! "filename" = Some fileName ->
     fileName <> "" ->
     SaveFile (path_Join L downloadDir fileName) v w = Ok ((None, v'), w') ->
     DownloadFile L downloadDir v w =
       Ok ((contentType, path_Join L downloadDir fileName, None), v', w')) /\
  (forall m, headers = Some m ->
             m !! CanonicalMIMEHeaderKey L "Content-Type" = None ->
             contentType = "").
Proof.
  intros headers contentType disposition.
  split; [| split; [| split; [| split]]].
  - intros Hdisp. unfold DownloadFile. fold headers.
    destruct headers as [m |] eqn:Hh.
    + fold disposition. rewrite Hdisp. cbn [String.eqb]. run.
      do 3 eexists. split; [reflexivity |].
      split; [discriminate |]. split; [| reflexivity].
      intros _. split; reflexivity.
    + run. do 3 eexists. split; [reflexivity |].
      split; [reflexivity |]. split; [| reflexivity].
      intros H. contradiction.
  - intros mediatype params Hdisp Hparse Hname. unfold DownloadFile. fold headers.
    destruct headers as [m |] eqn:Hh; [| contradiction Hdisp; reflexivity].
    fold disposition. rewrite (proj2 (eqb_empty disposition) Hdisp), Hparse, Hname.
    cbn [default from_option id String.eqb]. run. eexists. split; reflexivity.
  - intros ct filePath v' w'. unfold DownloadFile. fold headers.
    destruct headers as [m |] eqn:Hh; [| run; discriminate].
    fold disposition contentType.
    destruct (String.eqb disposition ""); [run; discriminate |].
    destruct (mime_ParseMediaType L disposition) as [[mediatype params] | d];
      [| run; discriminate].
    destruct (params !! "filename") as [fileName |] eqn:Hname;
      cbn [default from_option id]; [| run; discriminate].
    destruct (String.eqb fileName ""); [run; discriminate |].
    unfold bind at 1.
    destruct (SaveFile _ v w) as [[[[e |] v0] w0] | p] eqn:Hsave;
      [run; discriminate | | discriminate].
    run. intros [= <- <- <- <-].
    destruct (SaveFile_success _ v v0 w w0 Hsave) as [H1 [H2 H3]].
    exists mediatype, params, fileName. repeat split; assumption.
  - intros mediatype params fileName v' w' Hparse Hdisp Hname Hfile Hsave.
    unfold DownloadFile. fold headers.
    destruct headers as [m |] eqn:Hh; [| contradiction Hdisp; reflexivity].
    fold disposition contentType.
    rewrite (proj2 (eqb_empty disposition) Hdisp), Hparse, Hname.
    cbn [default from_option id]. rewrite (proj2 (eqb_empty fileName) Hfile).
    unfold bind at 1. rewrite Hsave. reflexivity.
  - intros m Hm Habsent. unfold contentType. rewrite Hm.
    apply Header_Get_absent. exact Habsent.
Qed.

End ViewFacts.

(** * The package's tests, replayed on the sample collaborators *)

(** [TestSetFormFileError] *)
Example SetForm_wrong_path :
  exists r w,
    SetForm Sample.lib [[("file", "/wrong/path")]] [] (New "") Sample.world = Ok (r, w) /\
    err r = Some (libError FromOS "no such file or directory") /\
    request r = request (New "").
Proof. do 2 eexists. evaluate. Qed.

(** [TestSetForm], with the file on the disk *)
Example SetForm_file_and_field :
  exists r w q,
    SetForm Sample.lib [[("file", "/tmp/f")]] [[("taskId", "123456")]] (New "")
            (setFiles {["/tmp/f" := Sample.hello]} Sample.world) = Ok (r, w) /\
    err r = None /\
    request r = Some q /\
    GetBody q = reqBody q /\ reqBody q <> None /\
    (0 < ContentLength q)%Z /\
    Header_Get Sample.lib (reqHeader q) "Content-Type" = "multipart/form-data; boundary=b0".
Proof. do 3 eexists. evaluate. Qed.

(** [TestSendGenerateURLError] and [TestSendRequestError] *)
Example send_failures :
  (exists r w, send Sample.lib "GET" (New "%") Sample.world =
                 Ok ((None, Some (libError FromURL "invalid URL escape")), r, w)) /\
  (exists r w, send Sample.lib "GET" (New "wrong-host") Sample.world =
                 Ok ((None, Some (libError FromTransport "no such host")), r, w)).
Proof. split; do 2 eexists; vm_compute; reflexivity. Qed.

(** [TestSetBodyXML] *)
Example SetBodyXML_header :
  exists r w q,
    SetBodyXML Sample.lib (New "") Sample.world = Ok (r, w) /\
    request r = Some q /\
    Header_Get Sample.lib (reqHeader q) "Content-Type" = "application/xml; charset=UTF-8".
Proof. do 3 eexists. evaluate. Qed.

(** [TestDownloadFile] *)
Example DownloadFile_attachment :
  exists v w,
    DownloadFile Sample.lib "/tmp"
      (Sample.view Sample.hello [("Content-Disposition", ["attachment;filename=x.bin"])])
      Sample.world = Ok (("application/json", "/tmp/x.bin", None), v, w) /\
    files w !! "/tmp/x.bin" = Some Sample.hello.
Proof. do 2 eexists. evaluate. Qed.

(** [SetTLSConfig] on a builder made by [New] writes into the default
    transport itself; after [SetProxy] the client points elsewhere, to a
    transport without TLS configuration, and the default transport keeps
    what was written. *)
Example proxy_after_tls :
  let c := Some (mkTLSConfig true "") in
  exists r1 w1 r2 w2 t0 t,
    SetTLSConfig c (New "http://example.com") Sample.world = Ok (r1, w1) /\
    SetProxy Sample.lib "http://proxy:3128" r1 w1 = Ok (r2, w2) /\
    clientTransport r1 w1 = Some t0 /\ TLSClientConfig t0 = c /\
    clientTransport r2 w2 = Some t /\ TLSClientConfig t = None /\
    transports w2 !! DefaultTransport = Some t0.
Proof. do 6 eexists. evaluate. Qed.

(** * The properties on the sample collaborators *)


(** C3. On [&Req{err: fmt.Errorf("Test Error")}], the builder of the
    package's own early-error test, [send] (hence [Get], [Post], [Put]
    and [Delete]) returns the recorded error and no response and touches
    nothing, whereas [PostJSON] panics: it sets the content type first,
    through the request pointer, which is nil. *)
Theorem PostJSON_panics_on_bare_failed_builder (L : GoLib) (w : World) :
  Get L Sample.bareFailed w = Ok ((None, Some Sample.testError), Sample.bareFailed, w) /\
  Post L Sample.bareFailed w = Ok ((None, Some Sample.testError), Sample.bareFailed, w) /\
  Put L Sample.bareFailed w = Ok ((None, Some Sample.testError), Sample.bareFailed, w) /\
  Delete L Sample.bareFailed w = Ok ((None, Some Sample.testError), Sample.bareFailed, w) /\
  PostJSON L Sample.bareFailed w = Panic NilDereference.
Proof. repeat split. Qed.

(** C1, as stated, fails: on a builder made by [New] that holds a
    recorded error, [SetContentType] changes the builder, and [SetProxy]
    with an address that does not parse replaces the recorded error. *)
Lemma configuration_after_error_is_applied :
  err Sample.failed = Some Sample.testError /\
  (exists r' w',
     SetContentType Sample.lib "text/plain" Sample.failed Sample.world = Ok (r', w') /\
     r' <> Sample.failed) /\
  (exists r' w',
     SetProxy Sample.lib "%" Sample.failed Sample.world = Ok (r', w') /\
     err r' = Some (libError FromURL "invalid URL escape") /\
     err r' <> err Sample.failed).
Proof.
  split; [reflexivity |]. split.
  - do 2 eexists. split; [reflexivity |].
    intros H.
    apply (f_equal (fun r => q ← request r; h ← reqHeader q; h !! "Content-Type")) in H.
    vm_compute in H. discriminate.
  - do 2 eexists. split; [reflexivity |]. split; [reflexivity | discriminate].
Qed.

Lemma recorded_error_gates_SetForm_only_witness :
  err Sample.failed = Some Sample.testError /\
  (forall files fields,
     SetForm Sample.lib files fields Sample.failed Sample.world =
       Ok (Sample.failed, Sample.world)).
Proof.
  split; [reflexivity |].
  exact (proj1 (recorded_error_gates_SetForm_only
                  Sample.lib Sample.failed Sample.testError Sample.world eq_refl)).
Defined.

(** C2, as stated, fails.  [Body] and then [Close], as the package's
    tests call them, close the stream twice; on a view whose body is
    empty, two [Body] calls read the stream twice; and when the stream
    fails to close, the first [Body] returns the error and the second
    the bytes. *)
Lemma Close_after_Body_closes_twice :
  (exists v1 v2 s,
     Body (Sample.view Sample.hello []) Sample.world =
       Ok ((Sample.hello, None), v1, Sample.world) /\
     Close (Some v1) Sample.world = Ok ((None, Some v2), Sample.world) /\
     streamOf v2 = Some s /\ reads s = 1%nat /\ closes s = 2%nat) /\
  (exists v0 v1 v2 s,
     v0 = mkResponse
            (Some (mkHttpResponse 200 (Some ∅)
                     (Some (mkStream [] None None false false 0 0)))) [] /\
     Body v0 Sample.world = Ok (([], None), v1, Sample.world) /\
     Body v1 Sample.world = Ok (([], None), v2, Sample.world) /\
     streamOf v2 = Some s /\ reads s = 2%nat /\ closes s = 2%nat) /\
  (exists v0 v1 w1 v2 w2,
     v0 = mkResponse
            (Some (mkHttpResponse 200 (Some ∅)
                     (Some (mkStream Sample.hello None (Some "broken pipe")
                                     true false 0 0)))) [] /\
     Body v0 Sample.world =
       Ok (([], Some (libError FromStream "broken pipe")), v1, w1) /\
     Body v1 w1 = Ok ((Sample.hello, None), v2, w2)).
Proof.
  split; [| split].
  - do 3 eexists. evaluate.
  - do 4 eexists. evaluate.
  - do 5 eexists. evaluate.
Qed.

Lemma Body_cached_after_first_read_witness :
  Body (Sample.view Sample.hello []) Sample.world =
    Ok ((Sample.hello, None), Sample.readView [], Sample.world) /\
  Sample.hello <> [] /\
  (forall w', Body (Sample.readView []) w' = Ok ((Sample.hello, None), Sample.readView [], w')).
Proof.
  split; [reflexivity |]. split; [discriminate |].
  exact (proj1 (Body_cached_after_first_read
                  Sample.lib (Sample.view Sample.hello []) (Sample.readView [])
                  Sample.world Sample.world Sample.hello
                  eq_refl ltac:(discriminate))).
Defined.

Lemma send_requires_GetBody_witness :
  err Sample.unreplayable = None /\
  (forall method,
     send Sample.lib method Sample.unreplayable Sample.world =
       Ok ((None, Some invariantError), Sample.unreplayable, Sample.world)).
Proof.
  split; [reflexivity |].
  exact (proj1 (proj1 (send_requires_GetBody
                         Sample.lib Sample.unreplayable
                         (mkRequest "GET" None (Some ∅) None None 5) Sample.world
                         eq_refl eq_refl)
                  ltac:(reflexivity) eq_refl)).
Defined.


Lemma DownloadFile_cases_witness :
  exists ct e w',
    DownloadFile Sample.lib "/tmp" (Sample.view Sample.hello []) Sample.world =
      Ok ((ct, "", Some e), Sample.view Sample.hello [], w') /\
    e = errorString "content-disposition header missing" /\
    files w' = files Sample.world.
Proof.
  destruct (proj1 (DownloadFile_cases Sample.lib "/tmp"
                     (Sample.view Sample.hello []) Sample.world) eq_refl)
    as [ct [e [w' [H1 [_ [H2 H3]]]]]].
  exists ct, e, w'. split; [exact H1 |]. split; [| exact H3].
  exact (proj1 (H2 ltac:(discriminate))).
Defined.

Lemma SaveFile_writes_materialized_body_witness :
  exists res w2,
    SaveFile "/tmp/x.bin" (Sample.view Sample.hello []) Sample.world =
      Ok ((res, Sample.readView []), w2) /\
    files w2 !! "/tmp/x.bin" = Some Sample.hello.
Proof.
  destruct (proj2 (SaveFile_writes_materialized_body
                     "/tmp/x.bin" (Sample.view Sample.hello []) (Sample.readView [])
                     Sample.world Sample.world Sample.hello eq_refl)
              ltac:(discriminate) eq_refl eq_refl)
    as [res [w2 [H1 [H2 _]]]].
  exists res, w2. split; assumption.
Defined.

Lemma address_checked_at_dispatch_only_witness :
  send Sample.lib "GET" (New "%") Sample.world =
    Ok ((None, Some (libError FromURL "invalid URL escape")),
        setRequest (Some (setMethod "GET" (mkRequest "GET" None (Some ∅) None None 0)))
                   (New "%"),
        addEvent (EvLog "Error generating URL: %s, %v")
          (addEvent (EvLog "URL parsing error: %s, %v")
             (addEvent (EvUrlParse "%") Sample.world))).
Proof.
  exact (proj2 (proj2 (proj2 (address_checked_at_dispatch_only Sample.lib "%")))
           "GET" (New "%") (mkRequest "GET" None (Some ∅) None None 0) Sample.world
           eq_refl eq_refl eq_refl eq_refl).
Defined.

Lemma SetProxy_installs_fresh_transport_witness :
  exists w',
    SetProxy Sample.lib "http://proxy:3128" (New "http://example.com") Sample.world =
      Ok (setClient (Some (mkClient (TransportPtr (Some 1%nat)) (30 * second)))
                    (New "http://example.com"), w') /\
    transports w' =
      [defaultTransportValue;
       mkTransport (Some (ProxyURL (mkURL "" "" "http://proxy:3128" "" "")))
                   None 0 0 0 0 false].
Proof.
  destruct (SetProxy_installs_fresh_transport
              Sample.lib "http://proxy:3128" (mkURL "" "" "http://proxy:3128" "" "")
              (New "http://example.com")
              (mkClient (TransportPtr (Some DefaultTransport)) (30 * second))
              Sample.world eq_refl eq_refl)
    as [w' [H1 [_ [H2 _]]]].
  exists w'. split; [exact H1 | exact H2].
Defined.



(** * Further properties of the builder *)

Section BuilderMore.

Variable L : GoLib.

(** ** Where recorded errors come from *)

Lemma createFormFile_error_origin (mw mw' : MWriter) (key value : string)
      (w w' : World) (e : error) :
  createFormFile L mw key value w = Ok ((mw', Some e), w') ->
  exists o d, e = libError o d.
Proof.
  unfold createFormFile, os_Open, io_Copy_part, deferredClose. run.
  destruct (mw_CreateFormFile L mw key value) as [mw1 [d |]].
  { intros [= _ <- _]. eauto. }
  cbn [fault files addEvent].
  destruct (fault w OpOpen value) as [d |]; [intros [= _ <- _]; eauto |].
  destruct (files w !! value) as [content |]; [| intros [= _ <- _]; eauto].
  cbn [fault addEvent].
  destruct (fault w OpRead value) as [d |].
  { cbn [fault addEvent]. destruct (fault w OpClose value); intros [= _ <- _]; eauto. }
  destruct (mw_PartWrite L mw1 content) as [mw2 [d |]];
    cbn [fmap option_fmap option_map fault addEvent];
    destruct (fault w OpClose value); intros H; inversion H; subst; eauto.
Qed.

Lemma runEntry_error_origin (x : entry) (mw : MWriter) (w w' : World) (e : error) :
  runEntry L x mw w = Ok (inr e, w') -> exists o d, e = libError o d.
Proof.
  destruct x as [key value | k v]; cbn [runEntry].
  - unfold bind at 1.
    destruct (createFormFile L mw key value w) as [[[mw' [e0 |]] w0] | p] eqn:Hc;
      run; try discriminate.
    intros [= <- _]. exact (createFormFile_error_origin _ _ _ _ _ _ _ Hc).
  - destruct (mw_WriteField L mw k v) as [mw' [d |]]; run; [| discriminate].
    intros [= <- _]. eauto.
Qed.

Lemma runEntries_error_origin (xs : list entry) :
  forall mw w w' e,
    runEntries L xs mw w = Ok (inr e, w') -> exists o d, e = libError o d.
Proof.
  induction xs as [| x xs IH]; intros mw w w' e; [discriminate |].
  cbn [runEntries]. unfold bind at 1.
  destruct (runEntry L x mw w) as [[[mw1 | e1] w1] | p] eqn:Hx; try discriminate.
  - apply IH.
  - run. intros [= <- _]. exact (runEntry_error_origin x mw w w1 e1 Hx).
Qed.

(** What [SetForm] returns on a builder without a recorded error: the
    builder with the error of the pass or of the writer's [Close], or
    the builder with the form installed. *)
Lemma SetForm_returns (fs fds : list (list (string * string)))
      (r r' : Req) (w w' : World) :
  err r = None ->
  SetForm L fs fds r w = Ok (r', w') ->
  (exists o d, r' = setErr (Some (libError o d)) r) \/
  (exists q mw h,
     request r = Some q /\
     Header_Set L (reqHeader q) "Content-Type" (mw_FormDataContentType L mw) = Ok h /\
     r' = setRequest
            (Some (setReqHeader h
                     (setReqBody (Some (mwBuffer mw)) (Some (mwBuffer mw))
                                 (Z.of_nat (length (mwBuffer mw))) q))) r).
Proof.
  intros He. unfold SetForm. rewrite He. unfold bind.
  rewrite rangeFiles_runEntries.
  destruct (runEntries L _ (multipart_NewWriter L) w) as [[[mw1 | e] w1] | p] eqn:H1;
    [| | discriminate].
  2: { intros [= <- _]. left.
       destruct (runEntries_error_origin _ _ _ _ _ H1) as [o [d ->]]. eauto. }
  rewrite rangeFields_runEntries.
  destruct (runEntries L _ mw1 w1) as [[[mw2 | e] w2] | p] eqn:H2; [| | discriminate].
  2: { intros [= <- _]. left.
       destruct (runEntries_error_origin _ _ _ _ _ H2) as [o [d ->]]. eauto. }
  destruct (mw_Close L mw2) as [mw3 [d |]].
  { run. intros [= <- _]. left. eauto. }
  destruct (request r) as [q |]; [| discriminate].
  cbn [reqHeader setReqBody].
  destruct (Header_Set L (reqHeader q) _ _) as [h |] eqn:Hset; [| discriminate].
  intros [= <- _]. right. exists q, mw3, h. repeat split. exact Hset.
Qed.

(** What a header assignment through the builder returns. *)
Lemma requestHeaderSet_returns (k v : string) (r r' : Req) (w w' : World) :
  requestHeaderSet L k v r w = Ok (r', w') ->
  w' = w /\
  exists q h,
    request r = Some q /\ reqHeader q = Some h /\
    r' = setRequest
           (Some (setReqHeader (Some (<[CanonicalMIMEHeaderKey L k := [v]]> h)) q)) r.
Proof.
  unfold requestHeaderSet, Header_Set.
  destruct (request r) as [q |]; [| discriminate].
  destruct (reqHeader q) as [h |] eqn:Hh; [| discriminate].
  intros [= <- <-]. split; [reflexivity |]. exists q, h. repeat split. exact Hh.
Qed.

(** ** The replay invariant *)

Lemma requestHeaderSet_replayable (k v : string) (r r' : Req) (w w' : World) :
  replayable r -> requestHeaderSet L k v r w = Ok (r', w') -> replayable r'.
Proof.
  intros [Hbody Herr] Hset.
  destruct (requestHeaderSet_returns k v r r' w w' Hset) as [_ [q [h [Hq [_ ->]]]]].
  split; [| exact Herr].
  intros q' [= <-]. exact (Hbody q Hq).
Qed.

Lemma rangeHeaders_replayable (headers : list (string * string)) :
  forall r r' w w',
    replayable r -> rangeHeaders L headers r w = Ok (r', w') -> replayable r'.
Proof.
  induction headers as [| [k v] rest IH]; intros r r' w w' Hr.
  - intros [= <- _]. exact Hr.
  - cbn [rangeHeaders]. unfold bind.
    destruct (requestHeaderSet L k v r w) as [[r1 w1] | p] eqn:Hset; [| discriminate].
    apply IH. exact (requestHeaderSet_replayable k v r r1 w w1 Hr Hset).
Qed.

Lemma configure_replayable (c : config) (r r' : Req) (w w' : World) :
  replayable r -> configure L c r w = Ok (r', w') -> replayable r'.
Proof.
  intros Hr. pose proof Hr as [Hbody Herr].
  destruct c as [hs | ct | d | tc | t | u | b | | fs fds]; cbn [configure].
  - unfold SetHeaders. destruct (0 <? length hs)%nat.
    + apply rangeHeaders_replayable. exact Hr.
    + intros [= <- _]. exact Hr.
  - apply requestHeaderSet_replayable. exact Hr.
  - unfold SetTimeout. destruct (client r); [| discriminate].
    intros [= <- _]. exact Hr.
  - unfold SetTLSConfig. destruct (client r) as [cl |]; [| discriminate].
    destruct (Transport cl) as [| [l |]]; try discriminate.
    destruct (transports w !! l); [| discriminate].
    intros [= <- _]. exact Hr.
  - unfold SetTransport. destruct (client r); [| discriminate].
    intros [= <- _]. exact Hr.
  - unfold SetProxy, allocTransport. run.
    destruct (url_Parse L u) as [proxyURL | d].
    + destruct (client r); [| discriminate]. intros [= <- _]. exact Hr.
    + intros [= <- _]. split; [exact Hbody |].
      intros e [= <-]. eauto.
  - unfold SetBody. destruct (request r) as [q |]; [| discriminate].
    intros [= <- _]. split; [| exact Herr].
    intros q' [= <-]. split; reflexivity.
  - apply requestHeaderSet_replayable. exact Hr.
  - destruct (err r) as [e |] eqn:He.
    { unfold SetForm. rewrite He. intros [= <- _]. exact Hr. }
    intros Hform.
    destruct (SetForm_returns fs fds r r' w w' He Hform)
      as [[o [d ->]] | [q [mw [h [Hq [_ ->]]]]]].
    + split; [exact Hbody |]. intros e [= <-]. eauto.
    + split; [| intros e H; cbn in H; congruence].
      intros q' [= <-]. split; reflexivity.
Qed.

Lemma New_replayable (a : string) : replayable (New a).
Proof.
  split.
  - intros q [= <-]. reflexivity.
  - intros e H. discriminate H.
Qed.

Lemma configureAll_keeps (P : Req -> Prop) :
  (forall c r r' w w', P r -> configure L c r w = Ok (r', w') -> P r') ->
  forall cs r r' w w', P r -> configureAll L cs r w = Ok (r', w') -> P r'.
Proof.
  intros Hstep cs. induction cs as [| c cs IH]; intros r r' w w' Hr.
  - intros [= <- _]. exact Hr.
  - cbn [configureAll]. unfold bind.
    destruct (configure L c r w) as [[r1 w1] | p] eqn:Hc; [| discriminate].
    apply IH. exact (Hstep c r r1 w w1 Hr Hc).
Qed.

Lemma send_replayable (method : string) (r r' : Req) (w w' : World)
      (res : option Response * option error) :
  replayable r ->
  send L method r w = Ok (res, r', w') ->
  res.2 <> Some invariantError.
Proof.
  intros [Hbody Herr] Hsend.
  destruct (err r) as [e |] eqn:He.
  - rewrite (send_recorded_error L method r e w He) in Hsend.
    injection Hsend as <- _ _. cbn.
    destruct (Herr e eq_refl) as [o [d ->]]. discriminate.
  - destruct (request r) as [q |] eqn:Hq.
    2: { unfold send in Hsend. rewrite He, Hq in Hsend. discriminate. }
    refine (proj1 (send_past_guard L method r q w res r' w' He Hq _ Hsend)).
    specialize (Hbody q eq_refl).
    destruct (GetBody q) as [b |].
    + rewrite bool_decide_eq_false_2 by discriminate. apply andb_false_r.
    + rewrite Hbody. reflexivity.
Qed.

(** X1. A builder made by [New] and configured by any chain of the
    package's calls is well formed and replayable: whenever its request
    announces content, [GetBody] is there and yields the bytes of the
    body.  So no verb ever answers with the [GetBody] error on it. *)
Theorem configured_builder_is_replayable
        (a : string) (cs : list config) (r : Req) (w w' : World) :
  configureAll L cs (New a) w = Ok (r, w') ->
  wellFormed r /\
  replayable r /\
  (forall method res r' w0 w1,
     send L method r w0 = Ok (res, r', w1) -> res.2 <> Some invariantError) /\
  (forall res r' w0 w1,
     PostJSON L r w0 = Ok (res, r', w1) -> res.2 <> Some invariantError).
Proof.
  intros Hrun.
  assert (Hwf : wellFormed r)
    by exact (configureAll_keeps wellFormed (configure_wellFormed L)
                cs (New a) r w w' (New_wellFormed a) Hrun).
  assert (Hr : replayable r)
    by exact (configureAll_keeps replayable configure_replayable
                cs (New a) r w w' (New_replayable a) Hrun).
  split; [exact Hwf |]. split; [exact Hr |]. split.
  - intros method res r' w0 w1. apply send_replayable. exact Hr.
  - intros res r' w0 w1. unfold PostJSON, SetContentType. unfold bind.
    destruct (requestHeaderSet L _ _ r w0) as [[r1 w2] | p] eqn:Hset; [| discriminate].
    apply send_replayable.
    exact (requestHeaderSet_replayable _ _ r r1 w0 w2 Hr Hset).
Qed.

(** ** Headers *)

Lemma setRequest_same (r : Req) (q : HttpRequest) (h : gmap string (list string)) :
  request r = Some q -> reqHeader q = Some h ->
  setRequest (Some (setReqHeader (Some h) q)) r = r.
Proof. destruct r, q; cbn; intros [= ->] ->; reflexivity. Qed.

Lemma SetHeaders_range (headers : list (string * string)) (r : Req) (w : World) :
  SetHeaders L headers r w = rangeHeaders L headers r w.
Proof. destruct headers as [| [k v] rest]; reflexivity. Qed.

Lemma rangeHeaders_setAll (headers : list (string * string)) :
  forall r q h w,
    request r = Some q -> reqHeader q = Some h ->
    rangeHeaders L headers r w =
      Ok (setRequest (Some (setReqHeader (Some (setAll L headers h)) q)) r, w).
Proof.
  induction headers as [| [k v] rest IH]; intros r q h w Hq Hh.
  - cbn. rewrite (setRequest_same r q h Hq Hh). reflexivity.
  - cbn [rangeHeaders]. unfold bind.
    rewrite (requestHeaderSet_present L k v r q h w Hq Hh).
    erewrite IH by reflexivity. reflexivity.
Qed.

Lemma Header_Get_setAll (headers : list (string * string)) :
  forall h key,
    Header_Get L (Some (setAll L headers h)) key =
      match lastValue L headers key with
      | Some v => v
      | None => Header_Get L (Some h) key
      end.
Proof.
  induction headers as [| [k v] rest IH]; intros h key; [reflexivity |].
  change (setAll L ((k, v) :: rest) h)
    with (setAll L rest (<[CanonicalMIMEHeaderKey L k := [v]]> h)).
  rewrite IH. cbn [lastValue].
  destruct (lastValue L rest key); [reflexivity |].
  unfold Header_Get. rewrite lookup_insert.
  destruct (decide (CanonicalMIMEHeaderKey L k = CanonicalMIMEHeaderKey L key));
    reflexivity.
Qed.

(** X2. On a builder whose request has a header map, [SetHeaders]
    returns without touching the world; afterwards [Header.Get] of a key
    is the value of the last entry the range visited whose key has the
    same canonical form, and what it was before when there is none; method,
    body, replay factory, content length, client, address and recorded
    error are as they were. *)
Theorem SetHeaders_last_write_wins
        (headers : list (string * string)) (r : Req) (q : HttpRequest)
        (h : gmap string (list string)) (w : World) :
  request r = Some q ->
  reqHeader q = Some h ->
  exists r' q',
    SetHeaders L headers r w = Ok (r', w) /\
    request r' = Some q' /\
    (forall key,
       Header_Get L (reqHeader q') key =
         match lastValue L headers key with
         | Some v => v
         | None => Header_Get L (reqHeader q) key
         end) /\
    Method q' = Method q /\ reqBody q' = reqBody q /\ GetBody q' = GetBody q /\
    ContentLength q' = ContentLength q /\
    client r' = client r /\ address r' = address r /\ err r' = err r.
Proof.
  intros Hq Hh. do 2 eexists. split.
  { rewrite SetHeaders_range. exact (rangeHeaders_setAll headers r q h w Hq Hh). }
  split; [reflexivity |]. split.
  { intros key. cbn [reqHeader setReqHeader]. rewrite Hh. apply Header_Get_setAll. }
  repeat split.
Qed.

Lemma rangeHeaders_app (hs1 hs2 : list (string * string)) :
  forall r w,
    rangeHeaders L (hs1 ++ hs2) r w =
      (r' <- rangeHeaders L hs1 r ;; rangeHeaders L hs2 r') w.
Proof.
  induction hs1 as [| [k v] rest IH]; intros r w; [reflexivity |].
  cbn [app rangeHeaders]. unfold bind in *.
  destruct (requestHeaderSet L k v r w) as [[r1 w1] | p]; [| reflexivity].
  apply IH.
Qed.

(** X3. Two [SetHeaders] calls in a row do what one range over the
    entries the first visits followed by those the second visits does,
    on every builder, panics included; with no entry the call returns the builder
    as it is, even one that has no request; and [SetContentType] is
    [SetHeaders] with the single entry for [Content-Type]. *)
Theorem SetHeaders_composes (hs1 hs2 : list (string * string)) (r : Req) (w : World) :
  (r' <- SetHeaders L hs1 r ;; SetHeaders L hs2 r') w = SetHeaders L (hs1 ++ hs2) r w /\
  SetHeaders L [] r w = Ok (r, w) /\
  (forall contentType,
     SetContentType L contentType r w = SetHeaders L [("Content-Type", contentType)] r w).
Proof.
  split; [| split].
  - rewrite SetHeaders_range, rangeHeaders_app. unfold bind.
    rewrite SetHeaders_range.
    destruct (rangeHeaders L hs1 r w) as [[r1 w1] | p]; [| reflexivity].
    apply SetHeaders_range.
  - reflexivity.
  - intros contentType. cbn. unfold SetContentType, bind.
    destruct (requestHeaderSet L _ _ r w) as [[r1 w1] | p]; reflexivity.
Qed.

(** The entries of a Go map come in an order the runtime chooses.  When
    no two keys have the same canonical form the header map they leave
    does not depend on it. *)
Lemma setAll_Permutation (hs hs' : list (string * string)) :
  Permutation hs hs' ->
  NoDup (map (fun kv => CanonicalMIMEHeaderKey L kv.1) hs) ->
  forall h, setAll L hs h = setAll L hs' h.
Proof.
  induction 1 as [| x l l' Hp IH | x y l | l l' l'' Hp1 IH1 Hp2 IH2]; intros Hnd h.
  - reflexivity.
  - apply NoDup_cons in Hnd as [_ Hnd]. exact (IH Hnd _).
  - apply NoDup_cons in Hnd as [Hy _].
    unfold setAll. cbn [foldl]. f_equal. apply insert_insert_ne.
    intros Heq. apply Hy. cbn [map]. rewrite Heq. apply list_elem_of_here.
  - rewrite (IH1 Hnd h). apply IH2.
    apply (proj1 (NoDup_Permutation_proper _ _ (Permutation_map _ Hp1))). exact Hnd.
Qed.

(** X23. [SetHeaders] ranges over a Go map, whose order of iteration is
    not fixed.  When no two keys of the map have the same canonical
    form, the call has the same outcome in every order, panics included.
    When two keys have the same canonical form and different values,
    as [content-type] and [Content-Type] may, the two orders leave
    different headers: the value visited last is the one kept. *)
Theorem SetHeaders_iteration_order
        (hs hs' : list (string * string)) (r : Req) (w : World) :
  Permutation hs hs' ->
  (NoDup (map (fun kv => CanonicalMIMEHeaderKey L kv.1) hs) ->
   SetHeaders L hs r w = SetHeaders L hs' r w) /\
  (forall q h k1 k2 v1 v2,
     request r = Some q -> reqHeader q = Some h ->
     CanonicalMIMEHeaderKey L k1 = CanonicalMIMEHeaderKey L k2 ->
     v1 <> v2 ->
     exists r1 r2 q1 q2,
       SetHeaders L [(k1, v1); (k2, v2)] r w = Ok (r1, w) /\
       SetHeaders L [(k2, v2); (k1, v1)] r w = Ok (r2, w) /\
       request r1 = Some q1 /\ request r2 = Some q2 /\
       Header_Get L (reqHeader q1) k1 = v2 /\
       Header_Get L (reqHeader q2) k1 = v1 /\
       r1 <> r2).
Proof.
  intros Hp. split.
  - intros Hnd. rewrite !SetHeaders_range.
    destruct (request r) as [q |] eqn:Hq.
    + destruct (reqHeader q) as [h |] eqn:Hh.
      * rewrite (rangeHeaders_setAll hs r q h w Hq Hh).
        rewrite (rangeHeaders_setAll hs' r q h w Hq Hh).
        rewrite (setAll_Permutation hs hs' Hp Hnd h). reflexivity.
      * destruct Hp as [| [k v] l l' Hp | [k1 v1] [k2 v2] l | l l' l'' Hp1 Hp2].
        -- reflexivity.
        -- cbn [rangeHeaders]. unfold bind, requestHeaderSet, Header_Set.
           rewrite Hq, Hh. reflexivity.
        -- cbn [rangeHeaders]. unfold bind, requestHeaderSet, Header_Set.
           rewrite Hq, Hh. reflexivity.
        -- destruct l as [| [k v] l].
           ++ apply Permutation_nil in Hp1. subst l'.
              apply Permutation_nil in Hp2. subst l''. reflexivity.
           ++ destruct l'' as [| [k' v'] l''].
              ** apply Permutation_sym, Permutation_nil in Hp2. subst l'.
                 apply Permutation_sym, Permutation_nil in Hp1. discriminate.
              ** cbn [rangeHeaders]. unfold bind, requestHeaderSet, Header_Set.
                 rewrite Hq, Hh. reflexivity.
    + destruct hs as [| [k v] l], hs' as [| [k' v'] l'].
      * reflexivity.
      * apply Permutation_nil in Hp. discriminate.
      * apply Permutation_sym, Permutation_nil in Hp. discriminate.
      * cbn [rangeHeaders]. unfold bind.
        rewrite !(requestHeaderSet_absent L _ _ r w Hq). reflexivity.
  - intros q h k1 k2 v1 v2 Hq Hh Hk Hv.
    do 4 eexists.
    split; [rewrite SetHeaders_range; exact (rangeHeaders_setAll _ r q h w Hq Hh) |].
    split; [rewrite SetHeaders_range; exact (rangeHeaders_setAll _ r q h w Hq Hh) |].
    split; [reflexivity |]. split; [reflexivity |].
    cbn [reqHeader setReqHeader].
    split; [| split].
    + rewrite Header_Get_setAll. cbn [lastValue].
      rewrite decide_True by (symmetry; exact Hk). reflexivity.
    + rewrite Header_Get_setAll. cbn [lastValue].
      rewrite decide_True by reflexivity. reflexivity.
    + intros Heq.
      assert (Hget : Header_Get L (Some (setAll L [(k1, v1); (k2, v2)] h)) k1 =
                     Header_Get L (Some (setAll L [(k2, v2); (k1, v1)] h)) k1).
      { apply (f_equal request) in Heq. cbn [request setRequest] in Heq.
        injection Heq as Heq. unfold setAll. cbn [foldl fst snd].
        rewrite Heq. reflexivity. }
      rewrite !Header_Get_setAll in Hget. cbn [lastValue] in Hget.
      rewrite decide_True in Hget by (symmetry; exact Hk).
      rewrite decide_True in Hget by reflexivity.
      apply Hv. symmetry. exact Hget.
Qed.

(** ** The body *)

(** X4. [SetBody] and [SetContentType] commute, on every builder and
    with the same panic when there is one; a second [SetBody] replaces
    the first entirely; and after [SetBody] the body and every replay
    are the bytes given, announced with their length, the headers being
    as before. *)
Theorem SetBody_overwrites_and_commutes
        (b1 b2 : bytes) (contentType : string) (r : Req) (w : World) :
  (r' <- SetBody b1 r ;; SetContentType L contentType r') w =
    (r' <- SetContentType L contentType r ;; SetBody b1 r') w /\
  (r' <- SetBody b1 r ;; SetBody b2 r') w = SetBody b2 r w /\
  (forall q, request r = Some q ->
     exists q',
       SetBody b1 r w = Ok (setRequest (Some q') r, w) /\
       reqBody q' = Some b1 /\ GetBody q' = Some b1 /\
       ContentLength q' = Z.of_nat (length b1) /\
       reqHeader q' = reqHeader q /\ Method q' = Method q).
Proof.
  split; [| split].
  - unfold SetBody, SetContentType, requestHeaderSet, Header_Set. run.
    destruct (request r) as [q |]; [| reflexivity]. cbn.
    destruct (reqHeader q); reflexivity.
  - unfold SetBody. run. destruct (request r) as [q |]; reflexivity.
  - intros q Hq. eexists. split.
    { unfold SetBody. rewrite Hq. reflexivity. }
    repeat split.
Qed.

(** ** What [send] hands to the client *)

(** What [send] leaves of the request. *)
Lemma send_request (method : string) (r r' : Req) (q : HttpRequest) (w w' : World)
      (res : option Response * option error) :
  send L method r w = Ok (res, r', w') ->
  request r = Some q ->
  exists q',
    request r' = Some q' /\
    reqHeader q' = reqHeader q /\ reqBody q' = reqBody q /\
    GetBody q' = GetBody q /\ ContentLength q' = ContentLength q /\
    client r' = client r /\ err r' = err r /\ address r' = address r /\
    (res.1 <> None -> Method q' = method /\ reqURL q' <> None /\ res.2 = None).
Proof.
  intros Hsend Hq. unfold send in Hsend. rewrite Hq in Hsend.
  assert (Hno : forall P : Prop, (None : option Response) <> None -> P)
    by (intros P Hne; contradiction Hne; reflexivity).
  destruct (err r) as [e |] eqn:He.
  { injection Hsend as <- <- _. exists q.
    repeat (split; [assumption || reflexivity |]). apply Hno; try eassumption. }
  destruct ((0 <? ContentLength q)%Z && bool_decide (GetBody q = None)).
  { injection Hsend as <- <- _. exists q.
    repeat (split; [assumption || reflexivity |]). apply Hno; try eassumption. }
  unfold bind at 1 in Hsend. cbn [address setRequest] in Hsend.
  pose proof (generateURL_cases L (address r) w) as Hgen.
  destruct (url_Parse L (ToLower L (address r))) as [u | d]; rewrite Hgen in Hsend.
  - cbn [client setRequest] in Hsend.
    destruct (client r) as [cl |] eqn:Hcl; [| discriminate]. run.
    cbn [transports addEvent] in Hsend.
    destruct (client_Do L (transports w) cl _) as [resp | d];
      injection Hsend as <- <- _; eexists;
      repeat (split; [assumption || reflexivity |]).
    + cbn. split; [discriminate | reflexivity].
    + apply Hno; try eassumption.
  - run. injection Hsend as <- <- _. eexists.
    repeat (split; [assumption || reflexivity |]). apply Hno; try eassumption.
Qed.

(** X5. Whenever [PostJSON] returns, with or without an error, the
    request's [Content-Type] is [application/json], whatever was set
    before ([SetForm]'s multipart type included); body, replay factory
    and content length are those the builder had; and when it returns a
    response the request's method is [POST]. *)
Theorem PostJSON_sets_content_type
        (r r' : Req) (w w' : World) (res : option Response * option error) :
  PostJSON L r w = Ok (res, r', w') ->
  exists q q',
    request r = Some q /\ request r' = Some q' /\
    Header_Get L (reqHeader q') "Content-Type" = "application/json" /\
    reqBody q' = reqBody q /\ GetBody q' = GetBody q /\
    ContentLength q' = ContentLength q /\
    (res.1 <> None -> Method q' = "POST").
Proof.
  unfold PostJSON, SetContentType. unfold bind.
  destruct (requestHeaderSet L _ _ r w) as [[r1 w1] | p] eqn:Hset; [| discriminate].
  destruct (requestHeaderSet_returns _ _ r r1 w w1 Hset) as [-> [q [h [Hq [Hh ->]]]]].
  intros Hsend.
  destruct (send_request "POST" _ r' _ w w' res Hsend eq_refl)
    as [q' [Hq' [Hhead [Hbody [Hget [Hlen [_ [_ [_ Hresp]]]]]]]]].
  exists q, q'. split; [exact Hq |]. split; [exact Hq' |]. split.
  { rewrite Hhead. cbn [reqHeader setReqHeader]. unfold Header_Get.
    rewrite lookup_insert_eq. reflexivity. }
  repeat split; try assumption.
  intros H. exact (proj1 (Hresp H)).
Qed.

(** X6. [send] on a builder with no recorded error, past the [GetBody]
    guard, whose address parses and which has a client: [client.Do]
    gets the builder's request with the method and the parsed URL
    written into it; its response comes back wrapped in a view that has
    nothing cached, and its error comes back as it is, with no view.
    Either way the builder keeps the method and the URL. *)
Theorem send_dispatches
        (method : string) (r : Req) (q : HttpRequest) (cl : HttpClient)
        (u : URL) (w : World) :
  err r = None ->
  request r = Some q ->
  (0 <? ContentLength q)%Z && bool_decide (GetBody q = None) = false ->
  url_Parse L (ToLower L (address r)) = inl u ->
  client r = Some cl ->
  let q2 := setReqURL (Some u) (setMethod method q) in
  let r2 := setRequest (Some q2) r in
  let w1 := addEvent (EvDo method (Some u))
              (addEvent (EvUrlParse (ToLower L (address r))) w) in
  send L method r w =
    match client_Do L (transports w) cl q2 with
    | inl resp => Ok ((Some (mkResponse (Some resp) []), None), r2, w1)
    | inr d =>
        Ok ((None, Some (libError FromTransport d)), r2,
            addEvent (EvLog "Error sending HTTP request: %s, %v") w1)
    end.
Proof.
  intros He Hq Hguard Hparse Hcl q2 r2 w1.
  pose proof (generateURL_cases L (address r) w) as Hgen. rewrite Hparse in Hgen.
  unfold send. rewrite He, Hq, Hguard. unfold bind at 1.
  cbn [address setRequest]. rewrite Hgen. cbn [client setRequest]. rewrite Hcl.
  run. cbn [transports addEvent].
  destruct (client_Do L (transports w) cl _); reflexivity.
Qed.

(** ** Transports *)

(** X7. [SetTLSConfig] writes into the transport object the client
    points to and leaves the builder as it is; every builder whose
    client points to the same object has the new configuration from then
    on, and for the default transport these are all the builders [New]
    makes; the other transports, the files and the trace are as they
    were. *)
Theorem SetTLSConfig_writes_shared_transport
        (c : option TLSConfig) (r : Req) (cl : HttpClient) (l : nat)
        (t : HttpTransport) (w : World) :
  client r = Some cl ->
  Transport cl = TransportPtr (Some l) ->
  transports w !! l = Some t ->
  exists w',
    SetTLSConfig c r w = Ok (r, w') /\
    transports w' = <[l := setTLSClientConfig c t]> (transports w) /\
    files w' = files w /\ trace w' = trace w /\
    (forall r2 c2,
       client r2 = Some c2 -> Transport c2 = TransportPtr (Some l) ->
       clientTransport r2 w' = Some (setTLSClientConfig c t)) /\
    (l = DefaultTransport ->
     forall a, clientTransport (New a) w' = Some (setTLSClientConfig c t)) /\
    (forall l', l' <> l -> transports w' !! l' = transports w !! l').
Proof.
  intros Hcl Hptr Ht.
  assert (Hnew : <[l := setTLSClientConfig c t]> (transports w) !! l
                 = Some (setTLSClientConfig c t))
    by (apply list_lookup_insert_eq; exact (lookup_lt_Some _ _ _ Ht)).
  eexists. split.
  { unfold SetTLSConfig. rewrite Hcl, Hptr, Ht. reflexivity. }
  cbn [transports setTransports files trace].
  do 3 (split; [reflexivity |]).
  split; [| split].
  - intros r2 c2 H2 Hp2. unfold clientTransport. rewrite H2. cbn. rewrite Hp2.
    exact Hnew.
  - intros -> a. exact Hnew.
  - intros l' Hne. apply list_lookup_insert_ne. congruence.
Qed.

(** X8. [SetTransport] makes the client point to the transport given and
    keeps its timeout.  A [SetTLSConfig] that follows writes into that
    transport and into no other, the default transport included; after
    [SetTransport(nil)] it panics. *)
Theorem SetTLSConfig_after_SetTransport
        (c : option TLSConfig) (r : Req) (cl : HttpClient) (w : World) :
  client r = Some cl ->
  (r' <- SetTransport None r ;; SetTLSConfig c r') w = Panic NilDereference /\
  (forall l t,
     transports w !! l = Some t ->
     let r1 := setClient (Some (mkClient (TransportPtr (Some l)) (Timeout cl))) r in
     exists w',
       SetTransport (Some l) r w = Ok (r1, w) /\
       (r' <- SetTransport (Some l) r ;; SetTLSConfig c r') w = Ok (r1, w') /\
       clientTransport r1 w' = Some (setTLSClientConfig c t) /\
       (forall l', l' <> l -> transports w' !! l' = transports w !! l')).
Proof.
  intros Hcl. split.
  - unfold SetTransport, SetTLSConfig. run. rewrite Hcl. reflexivity.
  - intros l t Ht r1.
    assert (Hnew : <[l := setTLSClientConfig c t]> (transports w) !! l
                   = Some (setTLSClientConfig c t))
      by (apply list_lookup_insert_eq; exact (lookup_lt_Some _ _ _ Ht)).
    eexists. split; [| split; [| split]].
    + unfold SetTransport. rewrite Hcl. reflexivity.
    + unfold SetTransport, SetTLSConfig. run. rewrite Hcl. cbn. rewrite Ht.
      reflexivity.
    + unfold clientTransport. cbn. exact Hnew.
    + intros l' Hne. cbn. apply list_lookup_insert_ne. congruence.
Qed.

(** X9. [SetProxy] with an address that does not parse, on any builder:
    the parser's error becomes the recorded error, whatever was recorded
    before, and nothing else changes, so the client keeps its transport
    and no transport is made; [send] then returns that error for every
    method without touching the world. *)
Theorem SetProxy_records_parse_error (u d : string) (r : Req) (w : World) :
  url_Parse L u = inr d ->
  let r' := setErr (Some (libError FromURL d)) r in
  SetProxy L u r w = Ok (r', addEvent (EvUrlParse u) w) /\
  request r' = request r /\ client r' = client r /\ address r' = address r /\
  transports (addEvent (EvUrlParse u) w) = transports w /\
  (forall method w',
     send L method r' w' = Ok ((None, Some (libError FromURL d)), r', w')).
Proof.
  intros Hparse r'. split.
  { unfold SetProxy. run. rewrite Hparse. reflexivity. }
  do 4 (split; [reflexivity |]).
  intros method w'. apply send_recorded_error. reflexivity.
Qed.

(** X10. A builder that has neither request nor client, as the zero
    value of [Req]: [SetHeaders] without entries returns it as it is,
    and every other configuration call panics, [SetProxy] when its
    address parses; so do [PostJSON], and [send] when no error is
    recorded. *)
Theorem builder_without_request_panics (r : Req) (w : World) :
  request r = None ->
  client r = None ->
  SetHeaders L [] r w = Ok (r, w) /\
  (forall k v rest, SetHeaders L ((k, v) :: rest) r w = Panic NilDereference) /\
  (forall contentType, SetContentType L contentType r w = Panic NilDereference) /\
  SetBodyXML L r w = Panic NilDereference /\
  (forall b, SetBody b r w = Panic NilDereference) /\
  (forall d, SetTimeout d r w = Panic NilDereference) /\
  (forall c, SetTLSConfig c r w = Panic NilDereference) /\
  (forall t, SetTransport t r w = Panic NilDereference) /\
  (forall u proxyURL,
     url_Parse L u = inl proxyURL -> SetProxy L u r w = Panic NilDereference) /\
  PostJSON L r w = Panic NilDereference /\
  (err r = None -> forall method, send L method r w = Panic NilDereference).
Proof.
  intros Hq Hcl.
  assert (Hset : forall k v w0, requestHeaderSet L k v r w0 = Panic NilDereference)
    by (intros; apply requestHeaderSet_absent; exact Hq).
  repeat split.
  - intros k v rest. unfold SetHeaders. cbn. unfold bind. rewrite Hset. reflexivity.
  - intros contentType. apply Hset.
  - apply Hset.
  - intros b. unfold SetBody. rewrite Hq. reflexivity.
  - intros d. unfold SetTimeout. rewrite Hcl. reflexivity.
  - intros c. unfold SetTLSConfig. rewrite Hcl. reflexivity.
  - intros t. unfold SetTransport. rewrite Hcl. reflexivity.
  - intros u proxyURL Hparse. unfold SetProxy, allocTransport. run.
    rewrite Hparse, Hcl. reflexivity.
  - unfold PostJSON, SetContentType, bind. rewrite Hset. reflexivity.
  - intros He method. unfold send. rewrite He, Hq. reflexivity.
Qed.

End BuilderMore.

(** * Further properties of [SetForm] *)


Section FormMore.

Variable L : GoLib.

Lemma SetForm_passed (fs fds : list (list (string * string)))
      (r : Req) (mw : MWriter) (w w1 : World) :
  err r = None ->
  runEntries L (formEntries fs fds) (multipart_NewWriter L) w = Ok (inl mw, w1) ->
  SetForm L fs fds r w =
    match mw_Close L mw with
    | (_, Some d) =>
        Ok (setErr (Some (libError FromMultipart d)) r,
            addEvent (EvLog "Can't close multipart writer Error: %v") w1)
    | (mw3, None) =>
        match request r with
        | None => Panic NilDereference
        | Some q =>
            let b := mwBuffer mw3 in
            let q1 := setReqBody (Some b) (Some b) (Z.of_nat (length b)) q in
            match Header_Set L (reqHeader q1) "Content-Type"
                             (mw_FormDataContentType L mw3) with
            | Panic p => Panic p
            | Ok h => Ok (setRequest (Some (setReqHeader h q1)) r, w1)
            end
        end
    end.
Proof.
  intros He. unfold formEntries, SetForm. rewrite He, runEntries_app.
  unfold bind. rewrite rangeFiles_runEntries.
  destruct (runEntries L _ (multipart_NewWriter L) w) as [[[mw1 | e1] w0] | p];
    try discriminate.
  rewrite rangeFields_runEntries. intros ->.
  destruct (mw_Close L mw) as [mw3 [d |]]; [reflexivity |].
  destruct (request r) as [q |]; [| reflexivity].
  cbn [reqHeader setReqBody].
  destruct (Header_Set L (reqHeader q) _ _); reflexivity.
Qed.

(** X11. [SetForm] on a builder without a recorded error whose request
    has a header map, when every entry goes through and the writer
    closes: the body and every replay are the bytes of the writer's
    buffer, announced with their length; [Content-Type] is the writer's
    boundary-qualified type and the other headers are kept; no error is
    recorded.  With no entry at all this is the case as soon as the
    writer closes. *)
Theorem SetForm_installs_form
        (fs fds : list (list (string * string)))
        (r : Req) (q : HttpRequest) (h : gmap string (list string))
        (mw mw' : MWriter) (w w1 : World) :
  err r = None ->
  request r = Some q ->
  reqHeader q = Some h ->
  runEntries L (formEntries fs fds) (multipart_NewWriter L) w = Ok (inl mw, w1) ->
  mw_Close L mw = (mw', None) ->
  exists q',
    SetForm L fs fds r w = Ok (setRequest (Some q') r, w1) /\
    reqBody q' = Some (mwBuffer mw') /\
    GetBody q' = Some (mwBuffer mw') /\
    ContentLength q' = Z.of_nat (length (mwBuffer mw')) /\
    Header_Get L (reqHeader q') "Content-Type" = mw_FormDataContentType L mw' /\
    (forall key,
       CanonicalMIMEHeaderKey L key <> CanonicalMIMEHeaderKey L "Content-Type" ->
       Header_Get L (reqHeader q') key = Header_Get L (reqHeader q) key) /\
    Method q' = Method q /\
    err (setRequest (Some q') r) = None /\
    (fs = [] -> fds = [] -> mw = multipart_NewWriter L /\ w1 = w).
Proof.
  intros He Hq Hh Hpass Hclose. eexists. split.
  { rewrite (SetForm_passed fs fds r mw w w1 He Hpass), Hclose, Hq.
    cbn [reqHeader setReqBody]. rewrite Hh. reflexivity. }
  cbn [reqBody GetBody ContentLength reqHeader Method setReqHeader setReqBody].
  do 3 (split; [reflexivity |]).
  split; [unfold Header_Get; rewrite lookup_insert_eq; reflexivity |].
  split.
  { intros key Hkey. rewrite Hh. unfold Header_Get.
    rewrite lookup_insert_ne by congruence. reflexivity. }
  split; [reflexivity |]. split; [exact He |].
  intros -> ->. cbn in Hpass. injection Hpass as <- <-. split; reflexivity.
Qed.

(** ** The disk under [SetForm] *)







(** ** Failures to close a source file *)

Lemma agreeButClose_addEvent (a b : World) (ea eb : list event) :
  agreeButClose a b ->
  agreeButClose (fold_right addEvent a ea) (fold_right addEvent b eb).
Proof.
  intros [Hf Hfa]. unfold agreeButClose.
  assert (Ha : forall es w, files (fold_right addEvent w es) = files w /\
                            fault (fold_right addEvent w es) = fault w).
  { induction es as [| e es IH]; intros w; [split; reflexivity |].
    cbn. exact (IH w). }
  destruct (Ha ea a) as [-> ->]. destruct (Ha eb b) as [-> ->].
  split; assumption.
Qed.

Lemma createFormFile_close_blind (mw : MWriter) (key value : string)
      (a a' b : World) (res : MWriter * option error) :
  agreeButClose a b ->
  createFormFile L mw key value a = Ok (res, a') ->
  exists b', createFormFile L mw key value b = Ok (res, b') /\ agreeButClose a' b'.
Proof.
  intros Hab. pose proof Hab as [Hf Hfa].
  assert (Eo : fault a OpOpen value = fault b OpOpen value)
    by (apply Hfa; discriminate).
  assert (Er : fault a OpRead value = fault b OpRead value)
    by (apply Hfa; discriminate).
  unfold createFormFile, os_Open, io_Copy_part, deferredClose. run.
  destruct (mw_CreateFormFile L mw key value) as [mw1 [d |]].
  { intros [= <- <-]. eexists. split; [reflexivity |].
    exact (agreeButClose_addEvent a b [_] [_] Hab). }
  cbn [fault files addEvent]. rewrite <- Eo, <- Hf.
  destruct (fault a OpOpen value) as [d |].
  { intros [= <- <-]. eexists. split; [reflexivity |].
    exact (agreeButClose_addEvent a b [_; _] [_; _] Hab). }
  destruct (files a !! value) as [content |].
  2: { intros [= <- <-]. eexists. split; [reflexivity |].
       exact (agreeButClose_addEvent a b [_; _] [_; _] Hab). }
  cbn [fault addEvent]. rewrite <- Er.
  destruct (fault a OpRead value) as [d |].
  { cbn [fault addEvent].
    destruct (fault a OpClose value), (fault b OpClose value);
      intros [= <- <-]; eexists; (split; [reflexivity |]).
    - exact (agreeButClose_addEvent a b [_; _; _] [_; _; _] Hab).
    - exact (agreeButClose_addEvent a b [_; _; _] [_; _] Hab).
    - exact (agreeButClose_addEvent a b [_; _] [_; _; _] Hab).
    - exact (agreeButClose_addEvent a b [_; _] [_; _] Hab). }
  destruct (mw_PartWrite L mw1 content) as [mw2 [d |]];
    cbn [fmap option_fmap option_map fault addEvent];
    destruct (fault a OpClose value), (fault b OpClose value);
    intros [= <- <-]; eexists; (split; [reflexivity |]).
  - exact (agreeButClose_addEvent a b [_; _; _] [_; _; _] Hab).
  - exact (agreeButClose_addEvent a b [_; _; _] [_; _] Hab).
  - exact (agreeButClose_addEvent a b [_; _] [_; _; _] Hab).
  - exact (agreeButClose_addEvent a b [_; _] [_; _] Hab).
  - exact (agreeButClose_addEvent a b [_; _] [_; _] Hab).
  - exact (agreeButClose_addEvent a b [_; _] [_] Hab).
  - exact (agreeButClose_addEvent a b [_] [_; _] Hab).
  - exact (agreeButClose_addEvent a b [_] [_] Hab).
Qed.

Lemma runEntry_close_blind (x : entry) (mw : MWriter) (a a' b : World)
      (res : MWriter + error) :
  agreeButClose a b ->
  runEntry L x mw a = Ok (res, a') ->
  exists b', runEntry L x mw b = Ok (res, b') /\ agreeButClose a' b'.
Proof.
  intros Hab. destruct x as [key value | k v]; cbn [runEntry].
  - unfold bind.
    destruct (createFormFile L mw key value a) as [[[mw' e] a0] | p] eqn:Hc;
      [| discriminate].
    destruct (createFormFile_close_blind mw key value a a0 b _ Hab Hc)
      as [b0 [-> Hab0]].
    destruct e as [e |]; run; intros [= <- <-]; eexists; (split; [reflexivity |]).
    + exact (agreeButClose_addEvent a0 b0 [_] [_] Hab0).
    + exact Hab0.
  - destruct (mw_WriteField L mw k v) as [mw' [d |]]; run; intros [= <- <-];
      eexists; (split; [reflexivity |]).
    + exact (agreeButClose_addEvent a b [_] [_] Hab).
    + exact Hab.
Qed.

Lemma runEntries_close_blind (xs : list entry) :
  forall mw a a' b res,
    agreeButClose a b ->
    runEntries L xs mw a = Ok (res, a') ->
    exists b', runEntries L xs mw b = Ok (res, b') /\ agreeButClose a' b'.
Proof.
  induction xs as [| x xs IH]; intros mw a a' b res Hab.
  - intros [= <- <-]. exists b. split; [reflexivity | exact Hab].
  - cbn [runEntries]. unfold bind.
    destruct (runEntry L x mw a) as [[r1 a1] | p] eqn:Hx; [| discriminate].
    destruct (runEntry_close_blind x mw a a1 b r1 Hab Hx) as [b1 [-> Hab1]].
    destruct r1 as [mw1 | e1].
    + apply IH. exact Hab1.
    + run. intros [= <- <-]. exists b1. split; [reflexivity | exact Hab1].
Qed.

(** X13. A source file that fails to close changes nothing but the log:
    on two disks with the same files that fail alike but for closing,
    [SetForm] returns the same builder, with the same recorded error if
    any and the same body. *)
Theorem SetForm_ignores_close_failures
        (fs fds : list (list (string * string))) (r r' : Req) (a a' b : World) :
  agreeButClose a b ->
  SetForm L fs fds r a = Ok (r', a') ->
  exists b', SetForm L fs fds r b = Ok (r', b') /\ agreeButClose a' b'.
Proof.
  intros Hab. unfold SetForm.
  destruct (err r); [intros [= <- <-]; exists b; split; [reflexivity | exact Hab] |].
  unfold bind. rewrite !rangeFiles_runEntries.
  destruct (runEntries L _ (multipart_NewWriter L) a) as [[r1 a1] | p] eqn:H1;
    [| discriminate].
  destruct (runEntries_close_blind _ _ a a1 b r1 Hab H1) as [b1 [-> Hab1]].
  destruct r1 as [mw1 | e1];
    [| intros [= <- <-]; exists b1; split; [reflexivity | exact Hab1]].
  rewrite !rangeFields_runEntries.
  destruct (runEntries L _ mw1 a1) as [[r2 a2] | p] eqn:H2; [| discriminate].
  destruct (runEntries_close_blind _ _ a1 a2 b1 r2 Hab1 H2) as [b2 [-> Hab2]].
  destruct r2 as [mw2 | e2];
    [| intros [= <- <-]; exists b2; split; [reflexivity | exact Hab2]].
  destruct (mw_Close L mw2) as [mw3 [d |]].
  { run. intros [= <- <-]. eexists. split; [reflexivity |].
    exact (agreeButClose_addEvent a2 b2 [_] [_] Hab2). }
  destruct (request r) as [q |]; [| discriminate].
  destruct (Header_Set L _ _ _); [| discriminate].
  intros [= <- <-]. exists b2. split; [reflexivity | exact Hab2].
Qed.

End FormMore.

(** * Further properties of the view *)

Section ViewMore.

Variable L : GoLib.

(** ** Views without a response or without a stream *)

(** X14. A view that has no stream and nothing cached, as the zero value
    of [Response]: [Body] and [SaveFile] fail with "http.Response is
    nil" when the response itself is missing and "http.Response's Body
    is nil" otherwise, [Close] returns no error, and none of them changes
    the view or the files.  Without a response the status is 0, the
    headers are nil and [DownloadFile] fails with "http response headers
    missing".  On a nil receiver the status is 0, the headers are nil
    and [Close] returns no error. *)
Theorem view_without_stream (v : Response) (w : World) :
  streamOf v = None ->
  data v = [] ->
  let e := errorString match resp v with
                       | Some _ => "http.Response's Body is nil"
                       | None => "http.Response is nil"
                       end in
  (exists w', Body v w = Ok (([], Some e), v, w') /\ files w' = files w) /\
  (forall filePath,
     exists w', SaveFile filePath v w = Ok ((Some e, v), w') /\ files w' = files w) /\
  Close (Some v) w = Ok ((None, Some v), w) /\
  (resp v = None ->
   StatusCode (Some v) = 0%Z /\ Headers (Some v) = None /\
   forall downloadDir,
     exists w',
       DownloadFile L downloadDir v w =
         Ok (("", "", Some (errorString "http response headers missing")), v, w') /\
       files w' = files w) /\
  StatusCode None = 0%Z /\ Headers None = None /\
  Close None w = Ok ((None, None), w).
Proof.
  intros Hs Hd e.
  assert (Hread : exists w', readBody v w = Ok (([], Some e), v, w') /\
                             files w' = files w).
  { unfold readBody. rewrite Hd. cbn [length Nat.eqb negb]. unfold e.
    unfold streamOf in Hs. destruct (resp v) as [h |]; cbn in Hs.
    - rewrite Hs. run. eexists. split; reflexivity.
    - run. eexists. split; reflexivity. }
  destruct Hread as [w1 [Hread Hfiles]].
  split; [| split; [| split; [| split]]].
  - unfold Body, bind. rewrite Hread. run. eexists. split; [reflexivity | exact Hfiles].
  - intros filePath. unfold SaveFile. unfold bind at 1. rewrite Hread. run.
    eexists. split; [reflexivity | exact Hfiles].
  - unfold Close. rewrite Hs. reflexivity.
  - intros Hresp. cbn [StatusCode Headers]. rewrite Hresp.
    do 2 (split; [reflexivity |]).
    intros downloadDir. unfold DownloadFile. cbn [Headers]. rewrite Hresp. run.
    eexists. split; reflexivity.
  - repeat split.
Qed.

(** ** Reads and closes that fail *)

Lemma setStream_streamOf (s s0 : Stream) (v : Response) :
  streamOf v = Some s0 ->
  streamOf (setStream s v) = Some s /\ data (setStream s v) = data v.
Proof.
  intros H. split; [exact (streamOf_setStream s s0 v H) | apply data_setStream].
Qed.

(** X15. When reading the stream fails, [Body] returns the stream's
    error and caches nothing: the stream has been read once more and not
    closed, and the next call reads it again.  And on any view with a
    stream that refuses reads once closed, as the bodies of [net/http]
    do, and nothing cached, a healthy one included, [Close] returns and
    the [Body] that comes after it fails with the error of a read on a
    closed body. *)
Theorem Body_read_failure (v : Response) (s : Stream) (w : World) :
  data v = [] ->
  streamOf v = Some s ->
  (forall e s1,
     ReadAll s = (inr e, s1) ->
     exists w',
       Body v w = Ok (([], Some e), setStream s1 v, w') /\
       data (setStream s1 v) = [] /\
       streamOf (setStream s1 v) = Some s1 /\
       reads s1 = S (reads s) /\ closes s1 = closes s /\ closed s1 = closed s) /\
  (failsAfterClose s = true ->
   exists res v' w',
     Close (Some v) w = Ok ((res, Some v'), w') /\
     res = libError FromStream <$> closeFault s /\
     streamOf v' = Some (StreamClose s).2 /\
     exists w'',
       Body v' w' =
         Ok (([], Some (libError FromStream "read on closed response body")),
             setStream (countRead (StreamClose s).2) v', w'')).
Proof.
  intros Hd Hs.
  pose proof Hs as Hs'. unfold streamOf in Hs'.
  destruct (resp v) as [h |] eqn:Hresp; [| discriminate]. cbn in Hs'.
  split.
  - intros e s1 Hread. eexists. split.
    { unfold Body, readBody. rewrite Hd. cbn [length Nat.eqb negb].
      rewrite Hresp, Hs', Hread. run. reflexivity. }
    destruct (setStream_streamOf s1 s v Hs) as [H1 H2].
    split; [rewrite H2; exact Hd |]. split; [exact H1 |].
    unfold ReadAll in Hread.
    destruct (closed s && failsAfterClose s); [injection Hread as _ <-; repeat split |].
    destruct (readFault s); [injection Hread as _ <-; repeat split | discriminate].
  - intros Hfail. unfold Close. rewrite Hs. unfold StreamClose.
    destruct (closeFault s); cbn [fmap option_fmap option_map snd]; run;
      do 3 eexists; (split; [reflexivity |]); (split; [reflexivity |]);
      (split; [exact (proj1 (setStream_streamOf _ s v Hs)) |]);
      eexists;
      unfold Body, readBody, setStream; rewrite Hresp, Hd;
      cbn [length Nat.eqb negb resp data respBody]; unfold ReadAll;
      cbn [closed failsAfterClose]; rewrite Hfail; cbn [andb]; run; reflexivity.
Qed.

(** X16. When the stream reads to the end but fails to close, the first
    [Body] returns the error of [Close] and no bytes, yet the bytes are
    cached: the next [Body] returns them without an error and without
    touching the stream. *)
Theorem Body_close_failure
        (v : Response) (s s1 : Stream) (b : bytes) (d : string) (w : World) :
  data v = [] ->
  streamOf v = Some s ->
  ReadAll s = (inl b, s1) ->
  closeFault s = Some d ->
  b <> [] ->
  exists v1 w1,
    Body v w = Ok (([], Some (libError FromStream d)), v1, w1) /\
    data v1 = b /\
    (forall w', Body v1 w' = Ok ((b, None), v1, w')).
Proof.
  intros Hd Hs Hread Hclose Hb.
  pose proof Hs as Hs'. unfold streamOf in Hs'.
  destruct (resp v) as [h |] eqn:Hresp; [| discriminate]. cbn in Hs'.
  assert (Hc1 : closeFault s1 = Some d).
  { unfold ReadAll in Hread.
    destruct (closed s && failsAfterClose s); [discriminate |].
    destruct (readFault s); [discriminate |].
    injection Hread as _ <-. exact Hclose. }
  do 2 eexists. split.
  { unfold Body, readBody. rewrite Hd. cbn [length Nat.eqb negb].
    rewrite Hresp, Hs', Hread. unfold StreamClose. rewrite Hc1.
    cbn [fmap option_fmap option_map]. run. reflexivity. }
  split; [rewrite data_setStream; reflexivity |].
  intros w'.
  match goal with
  | |- Body ?v1 _ = _ =>
      assert (Hdata : data v1 = b) by (rewrite data_setStream; reflexivity);
      pose proof (Body_cached v1 w') as Hc
  end.
  rewrite Hdata in Hc. exact (Hc Hb).
Qed.

(** ** What [SaveFile] does to the disk *)

(** The view [SaveFile] returns is the one [readBody] left. *)
Lemma SaveFile_view (filePath : string) (v v' : Response) (w w' : World)
      (res : option error) :
  SaveFile filePath v w = Ok ((res, v'), w') ->
  fault w' = fault w /\
  exists got w0, readBody v w = Ok ((got, v'), w0).
Proof.
  unfold SaveFile. unfold bind at 1.
  destruct (readBody v w) as [[[[b [e |]] v0] w0] | p] eqn:Hread; [| | discriminate].
  { destruct (readBody_world v v0 w w0 _ Hread) as [_ [Hf _]].
    run. intros [= _ <- <-]. split; [exact Hf | eauto]. }
  destruct (readBody_world v v0 w w0 _ Hread) as [_ [Hf _]].
  destruct (length b =? 0)%nat; [intros [= _ <- <-]; split; [exact Hf | eauto] |].
  unfold os_Create, io_Copy_file, file_Sync. run. cbn [fault addEvent setFiles].
  rewrite Hf.
  destruct (fault w OpCreate filePath);
    [intros [= _ <- <-]; split; [exact Hf | eauto] |].
  cbn [fault addEvent setFiles]. rewrite Hf.
  destruct (fault w OpWrite filePath);
    [intros [= _ <- <-]; split; [exact Hf | eauto] |].
  cbn [fault addEvent setFiles]. rewrite Hf.
  destruct (fault w OpSync filePath); cbn [fmap option_fmap option_map];
    intros [= _ <- <-]; (split; [exact Hf | eauto]).
Qed.

(** [SaveFile] once the body is at hand, by what the disk answers. *)
Lemma SaveFile_outcome (filePath : string) (v v1 : Response) (w : World) (b : bytes) :
  readBody v w = Ok ((b, None), v1, w) ->
  b <> [] ->
  exists res w',
    SaveFile filePath v w = Ok ((res, v1), w') /\
    match fault w OpCreate filePath, fault w OpWrite filePath with
    | Some d, _ => res = Some (libError FromOS d) /\ files w' = files w
    | None, Some d =>
        res = Some (libError FromOS d) /\ files w' = <[filePath := []]> (files w)
    | None, None =>
        res = libError FromOS <$> fault w OpSync filePath /\
        files w' = <[filePath := b]> (files w)
    end.
Proof.
  intros Hread Hb. unfold SaveFile. unfold bind at 1. rewrite Hread.
  destruct (length b =? 0)%nat eqn:Hlen; [apply length_zero_iff in Hlen; contradiction |].
  unfold os_Create, io_Copy_file, file_Sync. run. cbn [fault addEvent setFiles].
  destruct (fault w OpCreate filePath).
  { do 2 eexists. split; [reflexivity |]. split; reflexivity. }
  cbn [fault addEvent setFiles].
  destruct (fault w OpWrite filePath).
  { do 2 eexists. split; [reflexivity |]. split; reflexivity. }
  cbn [fault addEvent setFiles files].
  destruct (fault w OpSync filePath); cbn [fmap option_fmap option_map];
    do 2 eexists; (split; [reflexivity |]); cbn [files addEvent setFiles];
    rewrite insert_insert_eq; split; reflexivity.
Qed.

(** X17. [SaveFile] with a body to write.  When the file cannot be
    created the call returns that error and the files are as they were.
    When writing fails it returns that error.  Otherwise the destination
    holds the body, in place of what it held, and the call returns the
    error of [Sync], if any.  In every case no other file changes. *)
Theorem SaveFile_disk_effects
        (filePath : string) (v v1 : Response) (w w1 : World) (b : bytes) :
  readBody v w = Ok ((b, None), v1, w1) ->
  b <> [] ->
  exists res w',
    SaveFile filePath v w = Ok ((res, v1), w') /\
    match fault w OpCreate filePath, fault w OpWrite filePath with
    | Some d, _ => res = Some (libError FromOS d) /\ files w' = files w
    | None, Some d => res = Some (libError FromOS d)
    | None, None =>
        res = libError FromOS <$> fault w OpSync filePath /\
        files w' !! filePath = Some b
    end /\
    (forall other, other <> filePath -> files w' !! other = files w !! other).
Proof.
  intros Hread Hb.
  destruct (readBody_success v v1 w w1 b Hread) as [-> _].
  destruct (SaveFile_outcome filePath v v1 w b Hread Hb) as [res [w' [Hsave Hcase]]].
  exists res, w'. split; [exact Hsave |].
  destruct (fault w OpCreate filePath) as [d |].
  { destruct Hcase as [-> ->]. repeat split. }
  destruct (fault w OpWrite filePath) as [d |]; destruct Hcase as [-> ->].
  - split; [reflexivity |].
    intros other Hne. apply lookup_insert_ne. congruence.
  - split; [split; [reflexivity | apply lookup_insert_eq] |].
    intros other Hne. apply lookup_insert_ne. congruence.
Qed.

(** A first read that succeeds drains the stream and closes it. *)
Lemma readBody_drains (v v1 : Response) (w w1 : World) (b : bytes) (s : Stream) :
  data v = [] ->
  streamOf v = Some s ->
  readBody v w = Ok ((b, None), v1, w1) ->
  b = pending s /\
  exists s1, streamOf v1 = Some s1 /\ pending s1 = [] /\ closed s1 = true /\
             reads s1 = S (reads s) /\ closes s1 = S (closes s).
Proof.
  intros Hdata Hs. unfold readBody. rewrite Hdata. cbn [length Nat.eqb negb].
  pose proof Hs as Hs'. unfold streamOf in Hs'.
  destruct (resp v) as [h |] eqn:Hresp; [| discriminate]. cbn in Hs'. rewrite Hs'.
  unfold ReadAll.
  destruct (closed s && failsAfterClose s); [run; discriminate |].
  destruct (readFault s); [run; discriminate |].
  unfold StreamClose. cbn [closeFault drained countRead].
  destruct (closeFault s); cbn [fmap option_fmap option_map]; [run; discriminate |].
  intros [= <- <- <-]. split; [reflexivity |]. eexists. split.
  - eapply streamOf_setStream. rewrite streamOf_setData.
    eapply streamOf_setStream. exact Hs.
  - cbn. repeat split.
Qed.

(** X18. From the stream to the disk.  A [SaveFile] that reports no
    error on a view with nothing cached has written exactly the bytes
    the stream held, which were not empty, and has left the stream
    drained and closed, read once and closed once.  A second [SaveFile]
    to another path, on a disk that lets it through, writes the same
    bytes without reading the stream, and the first file keeps them. *)
Theorem SaveFile_writes_the_stream
        (p1 p2 : string) (v v1 : Response) (s : Stream) (w w1 : World) :
  data v = [] ->
  streamOf v = Some s ->
  SaveFile p1 v w = Ok ((None, v1), w1) ->
  files w1 !! p1 = Some (pending s) /\
  pending s <> [] /\
  (exists s1, streamOf v1 = Some s1 /\ pending s1 = [] /\ closed s1 = true /\
              reads s1 = S (reads s) /\ closes s1 = S (closes s)) /\
  (fault w OpCreate p2 = None -> fault w OpWrite p2 = None ->
   fault w OpSync p2 = None ->
   exists w2,
     SaveFile p2 v1 w1 = Ok ((None, v1), w2) /\
     files w2 !! p2 = Some (pending s) /\
     files w2 !! p1 = Some (pending s)).
Proof.
  intros Hdata Hs Hsave.
  destruct (SaveFile_success p1 v v1 w w1 Hsave) as [Hread [Hne Hfile]].
  destruct (readBody_drains v v1 w w (data v1) s Hdata Hs Hread) as [Hb Hs1].
  rewrite Hb in Hfile, Hne.
  split; [exact Hfile |]. split; [exact Hne |]. split; [exact Hs1 |].
  intros Hc Hw Hsy.
  destruct (SaveFile_view p1 v v1 w w1 None Hsave) as [Hfault _].
  assert (Hcached : data v1 <> []) by (rewrite Hb; exact Hne).
  destruct (SaveFile_outcome p2 v1 v1 w1 (data v1)
              (readBody_cached v1 w1 Hcached) Hcached) as [res [w2 [Hsave2 Hcase]]].
  rewrite Hfault, Hc, Hw, Hsy in Hcase. destruct Hcase as [-> Hfiles].
  exists w2. split; [exact Hsave2 |]. rewrite Hfiles, Hb.
  split; [apply lookup_insert_eq |].
  destruct (decide (p2 = p1)) as [-> | Hp]; [apply lookup_insert_eq |].
  rewrite lookup_insert_ne by exact Hp. exact Hfile.
Qed.

(** ** Failing downloads *)

(** X19. [DownloadFile] never returns a path together with an error.
    A disposition the media-type parser rejects gives the parser's error
    as it is, with the content type, and neither the view nor the files
    change: nothing is read.  When [SaveFile] fails, its error and its
    view are what [DownloadFile] returns, with the content type and no
    path. *)
Theorem DownloadFile_failures (downloadDir : string) (v : Response) (w : World) :
  let headers := Headers (Some v) in
  let contentType := Header_Get L headers "Content-Type" in
  let disposition := Header_Get L headers "Content-Disposition" in
  (forall ct filePath e v' w',
     DownloadFile L downloadDir v w = Ok ((ct, filePath, Some e), v', w') ->
     filePath = "") /\
  (forall d,
     disposition <> "" ->
     mime_ParseMediaType L disposition = inr d ->
     exists w',
       DownloadFile L downloadDir v w =
         Ok ((contentType, "", Some (libError FromMime d)), v, w') /\
       files w' = files w) /\
  (forall mediatype params fileName e v' w',
     disposition <> "" ->
     mime_ParseMediaType L disposition = inl (mediatype, params) ->
     params !! "filename" = Some fileName ->
     fileName <> "" ->
     SaveFile (path_Join L downloadDir fileName) v w = Ok ((Some e, v'), w') ->
     exists w'',
       DownloadFile L downloadDir v w = Ok ((contentType, "", Some e), v', w'') /\
       files w'' = files w').
Proof.
  intros headers contentType disposition.
  split; [| split].
  - intros ct filePath e v' w'. unfold DownloadFile. fold headers.
    destruct headers as [m |] eqn:Hh; [| run; intros [= _ <- _ _ _]; reflexivity].
    fold disposition contentType.
    destruct (String.eqb disposition ""); [run; intros [= _ <- _ _ _]; reflexivity |].
    destruct (mime_ParseMediaType L disposition) as [[mediatype params] | d];
      [| run; intros [= _ <- _ _ _]; reflexivity].
    destruct (String.eqb _ ""); [run; intros [= _ <- _ _ _]; reflexivity |].
    unfold bind at 1.
    destruct (SaveFile _ v w) as [[[[e0 |] v0] w0] | p]; [| | discriminate]; run.
    + intros [= _ <- _ _ _]. reflexivity.
    + discriminate.
  - intros d Hdisp Hparse. unfold DownloadFile. fold headers.
    destruct headers as [m |] eqn:Hh; [| contradiction Hdisp; reflexivity].
    fold disposition contentType.
    rewrite (proj2 (eqb_empty disposition) Hdisp), Hparse. run.
    eexists. split; reflexivity.
  - intros mediatype params fileName e v' w' Hdisp Hparse Hname Hfile Hsave.
    unfold DownloadFile. fold headers.
    destruct headers as [m |] eqn:Hh; [| contradiction Hdisp; reflexivity].
    fold disposition contentType.
    rewrite (proj2 (eqb_empty disposition) Hdisp), Hparse, Hname.
    cbn [default from_option id]. rewrite (proj2 (eqb_empty fileName) Hfile).
    unfold bind at 1. rewrite Hsave. run. eexists. split; reflexivity.
Qed.

(** ** Status and headers *)

Lemma meta_setStream (s : Stream) (v : Response) :
  StatusCode (Some (setStream s v)) = StatusCode (Some v) /\
  Headers (Some (setStream s v)) = Headers (Some v).
Proof.
  unfold setStream. destruct (resp v) as [h |] eqn:Hresp; cbn; rewrite ?Hresp;
    split; reflexivity.
Qed.

Lemma readBody_meta (v v' : Response) (w w' : World) (res : bytes * option error) :
  readBody v w = Ok (res, v', w') ->
  StatusCode (Some v') = StatusCode (Some v) /\ Headers (Some v') = Headers (Some v).
Proof.
  unfold readBody.
  destruct (negb _); [intros [= _ <- _]; split; reflexivity |].
  destruct (resp v) as [h |] eqn:Hresp; [| run; intros [= _ <- _]; split; reflexivity].
  destruct (respBody h) as [s |]; [| run; intros [= _ <- _]; split; reflexivity].
  destruct (ReadAll s) as [[b | e] s1]; [| run; intros [= _ <- _]; apply meta_setStream].
  destruct (StreamClose s1) as [[e |] s2]; run; intros [= _ <- _].
  all: destruct (meta_setStream s2 (setData b (setStream s1 v))) as [-> ->];
    exact (meta_setStream s1 v).
Qed.

(** The view [DownloadFile] returns is the one it got or the one
    [readBody] left. *)
Lemma DownloadFile_view (downloadDir : string) (v v' : Response) (w w' : World)
      (res : string * string * option error) :
  DownloadFile L downloadDir v w = Ok ((res, v'), w') ->
  v' = v \/ exists got w0, readBody v w = Ok ((got, v'), w0).
Proof.
  unfold DownloadFile.
  destruct (Headers (Some v)); [| run; intros [= _ <- _]; left; reflexivity].
  destruct (String.eqb _ ""); [run; intros [= _ <- _]; left; reflexivity |].
  destruct (mime_ParseMediaType L _) as [[mediatype params] | d];
    [| run; intros [= _ <- _]; left; reflexivity].
  destruct (String.eqb _ ""); [run; intros [= _ <- _]; left; reflexivity |].
  unfold bind at 1.
  destruct (SaveFile _ v w) as [[[e v1] w1] | p] eqn:Hs; [| discriminate].
  destruct (SaveFile_view _ v v1 w w1 e Hs) as [_ Hread].
  destruct e; run; intros [= _ <- _]; right; exact Hread.
Qed.

Lemma runBodyCall_meta (c : bodyCall) (v v' : Response) (w w' : World) :
  runBodyCall L c v w = Ok (v', w') ->
  StatusCode (Some v') = StatusCode (Some v) /\ Headers (Some v') = Headers (Some v).
Proof.
  destruct c as [| filePath | downloadDir]; cbn [runBodyCall]; unfold bind, ret.
  - destruct (Body v w) as [[[res v0] w0] | p] eqn:Hb; [| discriminate].
    intros [= <- _]. cbn [snd]. revert Hb. unfold Body. unfold bind at 1.
    destruct (readBody v w) as [[[[b [e |]] v1] w1] | p] eqn:Hread; run;
      try discriminate; intros [= _ <- _]; exact (readBody_meta _ _ _ _ _ Hread).
  - destruct (SaveFile filePath v w) as [[[res v0] w0] | p] eqn:Hs; [| discriminate].
    intros [= <- _]. cbn [snd].
    destruct (SaveFile_view filePath v v0 w w0 res Hs) as [_ [got [w1 Hread]]].
    exact (readBody_meta _ _ _ _ _ Hread).
  - destruct (DownloadFile L downloadDir v w) as [[[res v0] w0] | p] eqn:Hd;
      [| discriminate].
    intros [= <- _]. cbn [snd].
    destruct (DownloadFile_view downloadDir v v0 w w0 res Hd)
      as [-> | [got [w1 Hread]]]; [split; reflexivity |].
    exact (readBody_meta _ _ _ _ _ Hread).
Qed.

(** X20. Reading, saving, downloading and closing never change what
    [StatusCode] and [Headers] answer: after any sequence of [Body],
    [SaveFile] and [DownloadFile] calls, whether they fail or not, and
    after a [Close], the status and the headers of the view are those it
    had. *)
Theorem status_and_headers_are_stable
        (cs : list bodyCall) (v v' : Response) (w w' : World) :
  runBodyCalls L cs v w = Ok (v', w') ->
  StatusCode (Some v') = StatusCode (Some v) /\
  Headers (Some v') = Headers (Some v) /\
  (forall res v'' w'',
     Close (Some v') w' = Ok ((res, v''), w'') ->
     StatusCode v'' = StatusCode (Some v) /\ Headers v'' = Headers (Some v)).
Proof.
  revert v w. induction cs as [| c cs IH]; intros v w.
  - intros [= <- <-]. do 2 (split; [reflexivity |]).
    intros res v'' w''. unfold Close.
    destruct (streamOf v) as [s |]; [| intros [= _ <- _]; split; reflexivity].
    destruct (StreamClose s) as [[e |] s']; run; intros [= _ <- _];
      exact (meta_setStream s' v).
  - cbn [runBodyCalls]. unfold bind at 1.
    destruct (runBodyCall L c v w) as [[v1 w1] | p] eqn:Hc; [| discriminate].
    intros Hrest. destruct (runBodyCall_meta c v v1 w w1 Hc) as [H1 H2].
    rewrite <- H1, <- H2. exact (IH v1 w1 Hrest).
Qed.

(** ** From [send] to [Body] *)

(** X22. The view [send] returns wraps the response [client.Do] gave for
    the builder's request and has nothing cached; so its status and
    headers are those of that response, and a [Body] that succeeds on it
    returns exactly the bytes its stream held, without touching the
    world. *)
Theorem Body_of_sent_request
        (method : string) (r r' : Req) (w w' : World) (v : Response) :
  send L method r w = Ok ((Some v, None), r', w') ->
  (exists cl q hr,
     client r = Some cl /\ request r' = Some q /\
     client_Do L (transports w) cl q = inl hr /\
     v = mkResponse (Some hr) [] /\
     StatusCode (Some v) = respStatusCode hr /\
     Headers (Some v) = respHeader hr) /\
  (forall s b v1 w0 w1,
     streamOf v = Some s ->
     Body v w0 = Ok ((b, None), v1, w1) ->
     b = pending s /\ w1 = w0 /\ data v1 = b).
Proof.
  intros Hsend.
  assert (Hview : exists cl q hr,
            client r = Some cl /\ request r' = Some q /\
            client_Do L (transports w) cl q = inl hr /\
            v = mkResponse (Some hr) []).
  { revert Hsend. unfold send.
    destruct (err r); [discriminate |].
    destruct (request r) as [q |]; [| discriminate].
    destruct (_ && _); [discriminate |].
    unfold bind at 1. cbn [address setRequest].
    pose proof (generateURL_cases L (address r) w) as Hgen.
    destruct (url_Parse L (ToLower L (address r))) as [u | d]; rewrite Hgen;
      [| run; discriminate].
    cbn [client setRequest]. destruct (client r) as [cl |]; [| discriminate].
    run. cbn [transports addEvent].
    destruct (client_Do L (transports w) cl _) as [hr | d] eqn:Hdo; [| discriminate].
    intros [= <- <- _]. exists cl. do 2 eexists.
    split; [reflexivity |]. split; [reflexivity |]. split; [exact Hdo | reflexivity]. }
  destruct Hview as [cl [q [hr [Hcl [Hq [Hdo ->]]]]]].
  split.
  - exists cl, q, hr. repeat split; assumption.
  - intros s b v1 w0 w1 Hs. unfold Body, bind.
    destruct (readBody _ w0) as [[[[b' [e |]] v'] w''] | p] eqn:Hr;
      [run; discriminate | | discriminate].
    intros [= <- <- <-].
    destruct (readBody_drains (mkResponse (Some hr) []) _ _ _ _ s eq_refl Hs Hr)
      as [Hb _].
    split; [exact Hb |].
    revert Hr. unfold readBody. cbn [data length Nat.eqb negb resp].
    unfold streamOf in Hs. cbn in Hs. rewrite Hs. unfold ReadAll.
    destruct (closed s && failsAfterClose s); [run; discriminate |].
    destruct (readFault s); [run; discriminate |].
    unfold StreamClose. cbn [closeFault drained countRead].
    destruct (closeFault s); cbn [fmap option_fmap option_map]; [run; discriminate |].
    intros [= <- <- <-]. split; reflexivity.
Qed.

End ViewMore.

(** * The built-in logger *)

Lemma Builtin_call_writes (m : Builtin.method) (format : string) (args : list string)
      (g : LogLogger) :
  Builtin.call m format args (mkBuiltinLogger (Some g)) =
    Ok (mkBuiltinLogger
          (Some (mkLogLogger (logPrefix g) (logFlags g)
                   ((if Builtin.formatted m then Printf format args else Println args)
                      :: logWritten g)))).
Proof. destruct m; reflexivity. Qed.

(** X21. The ten methods of the logger [NewBuiltinLogger] makes do one
    thing each: they hand their arguments to [Println], or to [Printf]
    for the formatted ones, of the [log.Logger] below; the level plays
    no part, so [Fatal] and [Fatalf] do what [Debug] and [Debugf] do.
    Any run of calls returns, having passed one entry per call, in the
    order of the calls; prefix and flags stay the empty prefix and 5.  A
    [BuiltinLogger] without its [log.Logger] panics on the first
    call. *)
Theorem BuiltinLogger_only_prints (cs : list (Builtin.method * string * list string)) :
  Builtin.calls cs NewBuiltinLogger =
    Ok (mkBuiltinLogger (Some (mkLogLogger "" 5 (Builtin.written cs)))) /\
  (forall m format args rest,
     Builtin.calls ((m, format, args) :: rest) (mkBuiltinLogger None) =
       Panic NilDereference).
Proof.
  split.
  - assert (H : forall g,
              Builtin.calls cs (mkBuiltinLogger (Some g)) =
                Ok (mkBuiltinLogger
                      (Some (mkLogLogger (logPrefix g) (logFlags g)
                               (Builtin.written cs ++ logWritten g)%list)))).
    { unfold Builtin.written.
      induction cs as [| [[m format] args] rest IH]; intros g.
      - destruct g; reflexivity.
      - cbn [Builtin.calls]. rewrite Builtin_call_writes, IH. cbn.
        rewrite <- app_assoc. reflexivity. }
    unfold NewBuiltinLogger. rewrite H. cbn. rewrite app_nil_r. reflexivity.
  - intros m format args rest. destruct m; reflexivity.
Qed.

(** * The further properties on the sample collaborators *)

Lemma configured_builder_is_replayable_witness :
  exists r w',
    configureAll Sample.lib
      [CSetBody Sample.hello; CSetContentType "text/plain"; CSetProxy "%";
       CSetForm [[("file", "/wrong/path")]] []]
      (New "http://example.com") Sample.world = Ok (r, w') /\
    replayable r.
Proof.
  do 2 eexists. split; [vm_compute; reflexivity |].
  refine (proj1 (proj2 (configured_builder_is_replayable
                          Sample.lib "http://example.com"
                          [CSetBody Sample.hello; CSetContentType "text/plain";
                           CSetProxy "%"; CSetForm [[("file", "/wrong/path")]] []]
                          _ Sample.world _ _))).
  vm_compute. reflexivity.
Defined.

Lemma SetHeaders_last_write_wins_witness :
  exists r' q',
    SetHeaders Sample.lib [("x-token", "1"); ("Test-Header", "a"); ("X-Token", "2")]
               (New "") Sample.world = Ok (r', Sample.world) /\
    request r' = Some q' /\
    Header_Get Sample.lib (reqHeader q') "X-TOKEN" = "2" /\
    Header_Get Sample.lib (reqHeader q') "test-header" = "a" /\
    Header_Get Sample.lib (reqHeader q') "Content-Type" = "".
Proof.
  destruct (SetHeaders_last_write_wins
              Sample.lib [("x-token", "1"); ("Test-Header", "a"); ("X-Token", "2")]
              (New "") Cases.newRequest ∅ Sample.world eq_refl eq_refl)
    as [r' [q' [H1 [H2 [H3 _]]]]].
  exists r', q'. split; [exact H1 |]. split; [exact H2 |].
  rewrite !H3. repeat split.
Defined.

Lemma SetBody_overwrites_and_commutes_witness :
  exists q',
    SetBody Sample.hello (New "") Sample.world =
      Ok (setRequest (Some q') (New ""), Sample.world) /\
    GetBody q' = Some Sample.hello /\ ContentLength q' = 5%Z.
Proof.
  destruct (proj2 (proj2 (SetBody_overwrites_and_commutes
                            Sample.lib Sample.hello [] "" (New "") Sample.world))
              Cases.newRequest eq_refl)
    as [q' [H1 [_ [H2 [H3 _]]]]].
  exists q'. split; [exact H1 |]. split; [exact H2 | exact H3].
Defined.

Lemma PostJSON_sets_content_type_witness :
  exists res r' w' q',
    PostJSON Sample.lib (New "http://example.com") Sample.world = Ok (res, r', w') /\
    request r' = Some q' /\
    Header_Get Sample.lib (reqHeader q') "Content-Type" = "application/json".
Proof.
  do 3 eexists.
  assert (H : PostJSON Sample.lib (New "http://example.com") Sample.world
              = Ok (?[res], ?[r'], ?[w'])) by (vm_compute; reflexivity).
  destruct (PostJSON_sets_content_type Sample.lib _ _ _ _ _ H)
    as [q [q' [_ [H2 [H3 _]]]]].
  exists q'. split; [exact H |]. split; [exact H2 | exact H3].
Defined.

Lemma send_dispatches_witness :
  exists r2 w1,
    send Sample.lib "PUT" (New "HTTP://Example.com/Put") Sample.world =
      Ok ((Some (mkResponse (Some (Sample.answer Sample.hello [])) []), None), r2, w1) /\
    (q ← request r2; Some (Method q)) = Some "PUT" /\
    (q ← request r2; reqURL q) = Some (mkURL "" "" "http://example.com/put" "" "").
Proof.
  do 2 eexists. split.
  - exact (send_dispatches Sample.lib "PUT" (New "HTTP://Example.com/Put")
             Cases.newRequest Cases.newClient
             (mkURL "" "" "http://example.com/put" "" "") Sample.world
             eq_refl eq_refl eq_refl eq_refl eq_refl).
  - split; reflexivity.
Defined.

Lemma SetTLSConfig_writes_shared_transport_witness :
  exists w',
    SetTLSConfig (Some (mkTLSConfig true "")) (New "http://a") Sample.world =
      Ok (New "http://a", w') /\
    (forall b, clientTransport (New b) w'
               = Some (setTLSClientConfig (Some (mkTLSConfig true ""))
                                          defaultTransportValue)).
Proof.
  destruct (SetTLSConfig_writes_shared_transport
              (Some (mkTLSConfig true "")) (New "http://a") Cases.newClient
              DefaultTransport defaultTransportValue Sample.world
              eq_refl eq_refl eq_refl)
    as [w' [H1 [_ [_ [_ [_ [H2 _]]]]]]].
  exists w'. split; [exact H1 | exact (H2 eq_refl)].
Defined.

Lemma SetTLSConfig_after_SetTransport_witness :
  (r' <- SetTransport None (New "") ;; SetTLSConfig None r') Sample.world =
    Panic NilDereference.
Proof.
  exact (proj1 (SetTLSConfig_after_SetTransport
                  None (New "") Cases.newClient Sample.world eq_refl)).
Defined.

Lemma SetProxy_records_parse_error_witness :
  SetProxy Sample.lib "%" Sample.failed Sample.world =
    Ok (setErr (Some (libError FromURL "invalid URL escape")) Sample.failed,
        addEvent (EvUrlParse "%") Sample.world).
Proof.
  exact (proj1 (SetProxy_records_parse_error
                  Sample.lib "%" "invalid URL escape" Sample.failed Sample.world
                  eq_refl)).
Defined.

Lemma builder_without_request_panics_witness :
  SetHeaders Sample.lib [] Sample.bareFailed Sample.world =
    Ok (Sample.bareFailed, Sample.world) /\
  SetBody Sample.hello Sample.bareFailed Sample.world = Panic NilDereference.
Proof.
  destruct (builder_without_request_panics
              Sample.lib Sample.bareFailed Sample.world eq_refl eq_refl)
    as [H1 [_ [_ [_ [H2 _]]]]].
  split; [exact H1 | exact (H2 Sample.hello)].
Defined.

Lemma SetForm_installs_form_witness :
  exists q',
    SetForm Sample.lib [] [] (New "") Sample.world =
      Ok (setRequest (Some q') (New ""), Sample.world) /\
    GetBody q' = Some (list_byte_of_string "--b0--") /\
    ContentLength q' = 6%Z /\
    Header_Get Sample.lib (reqHeader q') "Content-Type"
      = "multipart/form-data; boundary=b0".
Proof.
  destruct (SetForm_installs_form
              Sample.lib [] [] (New "") Cases.newRequest ∅
              (multipart_NewWriter Sample.lib)
              (Sample.write (list_byte_of_string "--b0--")
                            (multipart_NewWriter Sample.lib))
              Sample.world Sample.world eq_refl eq_refl eq_refl eq_refl eq_refl)
    as [q' [H1 [_ [H2 [H3 [H4 _]]]]]].
  exists q'. split; [exact H1 |]. split; [exact H2 |]. split; [exact H3 | exact H4].
Defined.


Lemma failingClose_agrees : agreeButClose Cases.withFile Cases.failingClose.
Proof.
  split; [reflexivity |].
  intros op name Hne. destruct op; try reflexivity. contradiction Hne. reflexivity.
Qed.

Lemma SetForm_ignores_close_failures_witness :
  exists r' a' b',
    SetForm Sample.lib [[("file", "/tmp/f")]] [] (New "") Cases.withFile = Ok (r', a') /\
    SetForm Sample.lib [[("file", "/tmp/f")]] [] (New "") Cases.failingClose = Ok (r', b') /\
    err r' = None.
Proof.
  do 2 eexists.
  assert (H : SetForm Sample.lib [[("file", "/tmp/f")]] [] (New "") Cases.withFile
              = Ok (?[r'], ?[a'])) by (vm_compute; reflexivity).
  destruct (SetForm_ignores_close_failures
              Sample.lib _ _ _ _ _ _ Cases.failingClose failingClose_agrees H)
    as [b' [Hb _]].
  exists b'. split; [exact H |]. split; [exact Hb | reflexivity].
Defined.

Lemma view_without_stream_witness :
  exists w',
    Body Cases.zeroView Sample.world =
      Ok (([], Some (errorString "http.Response is nil")), Cases.zeroView, w') /\
    files w' = files Sample.world.
Proof.
  exact (proj1 (view_without_stream Sample.lib Cases.zeroView Sample.world
                  eq_refl eq_refl)).
Defined.

Lemma Body_read_failure_witness :
  (exists s1 w',
     Body Cases.brokenRead Sample.world =
       Ok (([], Some (libError FromStream "connection reset")),
           setStream s1 Cases.brokenRead, w') /\
     reads s1 = 1%nat /\ closes s1 = 0%nat) /\
  (exists v' w' v'' w'',
     Close (Some (Sample.view Sample.hello [])) Sample.world =
       Ok ((None, Some v'), w') /\
     Body v' w' =
       Ok (([], Some (libError FromStream "read on closed response body")), v'', w'')).
Proof.
  split.
  - destruct (proj1 (Body_read_failure
                       Cases.brokenRead
                       (mkStream Sample.hello (Some "connection reset") None true false 0 0)
                       Sample.world eq_refl eq_refl)
                _ _ eq_refl)
      as [w' [H1 [_ [_ [H2 [H3 _]]]]]].
    eexists. exists w'. split; [exact H1 |]. split; [exact H2 | exact H3].
  - destruct (proj2 (Body_read_failure
                       (Sample.view Sample.hello []) (Sample.stream Sample.hello)
                       Sample.world eq_refl eq_refl)
                eq_refl)
      as [res [v' [w' [H1 [Hres [_ [w'' H2]]]]]]].
    exists v', w'. do 2 eexists. split; [| exact H2].
    rewrite H1. rewrite Hres. reflexivity.
Defined.

Lemma Body_close_failure_witness :
  exists v1 w1,
    Body Cases.brokenClose Sample.world =
      Ok (([], Some (libError FromStream "broken pipe")), v1, w1) /\
    (forall w', Body v1 w' = Ok ((Sample.hello, None), v1, w')).
Proof.
  destruct (Body_close_failure
              Cases.brokenClose
              (mkStream Sample.hello None (Some "broken pipe") true false 0 0)
              _ Sample.hello "broken pipe" Sample.world
              eq_refl eq_refl eq_refl eq_refl ltac:(discriminate))
    as [v1 [w1 [H1 [_ H2]]]].
  exists v1, w1. split; [exact H1 | exact H2].
Defined.

Lemma SaveFile_disk_effects_witness :
  exists res w',
    SaveFile "/tmp/f" (Sample.view Sample.hello []) Cases.withFile =
      Ok ((res, Sample.readView []), w') /\
    (forall other, other <> "/tmp/f" -> files w' !! other = files Cases.withFile !! other).
Proof.
  destruct (SaveFile_disk_effects
              "/tmp/f" (Sample.view Sample.hello []) (Sample.readView [])
              Cases.withFile Cases.withFile Sample.hello eq_refl ltac:(discriminate))
    as [res [w' [H1 [_ H2]]]].
  exists res, w'. split; [exact H1 | exact H2].
Defined.

Lemma SaveFile_writes_the_stream_witness :
  exists v1 w1,
    SaveFile "/tmp/a" (Sample.view Sample.hello []) Sample.world = Ok ((None, v1), w1) /\
    files w1 !! "/tmp/a" = Some Sample.hello.
Proof.
  do 2 eexists.
  assert (H : SaveFile "/tmp/a" (Sample.view Sample.hello []) Sample.world
              = Ok ((None, ?[v1]), ?[w1])) by (vm_compute; reflexivity).
  split; [exact H |].
  exact (proj1 (SaveFile_writes_the_stream
                  "/tmp/a" "/tmp/b" (Sample.view Sample.hello []) _
                  (Sample.stream Sample.hello) Sample.world _
                  eq_refl eq_refl H)).
Defined.

Lemma DownloadFile_failures_witness :
  exists w',
    DownloadFile Sample.lib "/tmp" Cases.badDisposition Sample.world =
      Ok (("application/json", "", Some (libError FromMime "mime: no media type")),
          Cases.badDisposition, w') /\
    files w' = files Sample.world.
Proof.
  exact (proj1 (proj2 (DownloadFile_failures
                         Sample.lib "/tmp" Cases.badDisposition Sample.world))
           "mime: no media type" ltac:(discriminate) eq_refl).
Defined.

Lemma status_and_headers_are_stable_witness :
  exists v' w',
    runBodyCalls Sample.lib [CallBody; CallSaveFile "/tmp/x"; CallDownloadFile "/tmp"]
                 (Sample.view Sample.hello []) Sample.world = Ok (v', w') /\
    StatusCode (Some v') = 200%Z.
Proof.
  do 2 eexists.
  assert (H : runBodyCalls Sample.lib
                [CallBody; CallSaveFile "/tmp/x"; CallDownloadFile "/tmp"]
                (Sample.view Sample.hello []) Sample.world = Ok (?[v'], ?[w']))
    by (vm_compute; reflexivity).
  split; [exact H |].
  exact (proj1 (status_and_headers_are_stable Sample.lib _ _ _ _ _ H)).
Defined.

Lemma Body_of_sent_request_witness :
  exists v r' w',
    send Sample.lib "GET" (New "http://example.com/") Sample.world =
      Ok ((Some v, None), r', w') /\
    (forall b v1 w0 w1, Body v w0 = Ok ((b, None), v1, w1) -> b = Sample.hello).
Proof.
  do 3 eexists.
  assert (H : send Sample.lib "GET" (New "http://example.com/") Sample.world
              = Ok ((Some ?[v], None), ?[r'], ?[w'])) by (vm_compute; reflexivity).
  split; [exact H |].
  intros b v1 w0 w1 Hb.
  exact (proj1 (proj2 (Body_of_sent_request Sample.lib _ _ _ _ _ _ H)
                  (Sample.stream Sample.hello) b v1 w0 w1 eq_refl Hb)).
Defined.

Lemma SetHeaders_iteration_order_witness :
  SetHeaders Sample.lib [("accept", "text/plain"); ("x-id", "7")]
             (New "http://a") Sample.world =
  SetHeaders Sample.lib [("x-id", "7"); ("accept", "text/plain")]
             (New "http://a") Sample.world.
Proof.
  apply (proj1 (SetHeaders_iteration_order
                  Sample.lib _ _ (New "http://a") Sample.world (perm_swap _ _ _))).
  apply NoDup_cons_2; [| apply NoDup_singleton].
  vm_compute. intros H. apply list_elem_of_singleton in H. discriminate H.
Defined.
